(** * Job-Scout: the analysis pipeline of [src/server.ts]

    A shallow embedding of the server's helpers ([extractText],
    [scrapeLinkedInJobs], [normalizeJobData], [analyzeCvAndJobs]) and of
    the [POST /api/analyze] handler, together with the properties of the
    specification that concern them.

    Conventions of the embedding:
    - a JavaScript value is a [JsVal]; numbers are the integers of [Z]
      (scores, thresholds and item counts are integers in this program);
    - a raw listing, an object with provider-specific keys, is a
      [gmap string JsVal]; a missing key reads as [VUndef];
    - a computation that may throw is a [Result]; the scrape, whose poll
      loop has no bound, may also be [Pending];
    - the outside world (completion service, listing provider, document
      decoders, identifier generator, clock) is a parameter of the
      section that models the function calling it. *)

From Stdlib Require Import ZArith String Ascii List Lia Sorted Permutation.
From Stdlib Require Import DecimalString.
From Stdlib Require DecimalPos.
From stdpp Require Import gmap strings list pretty.
From Equations Require Import Equations.

Local Open Scope Z_scope.
Local Open Scope string_scope.
Local Open Scope list_scope.

(** ** JavaScript values *)

Module Js.

Inductive JsVal : Type :=
| VUndef
| VNull
| VBool (b : bool)
| VNum (z : Z)
| VStr (s : string)
| VObj (ref : nat).

#[global] Instance JsVal_eq_dec : EqDecision JsVal.
Proof. solve_decision. Defined.

(** ToBoolean: [undefined], [null], [false], [0] and the empty string
    are falsy, every object is truthy. *)
Definition truthy (v : JsVal) : bool :=
  match v with
  | VUndef | VNull => false
  | VBool b => b
  | VNum z => negb (z =? 0)%Z
  | VStr s => negb (String.eqb s "")
  | VObj _ => true
  end.

(** [a || b]: the left operand when it is truthy, else the right one. *)
Definition or (a b : JsVal) : JsVal := if truthy a then a else b.

(** Property access [o.k] on an object held as a finite map. *)
Definition get (o : gmap string JsVal) (k : string) : JsVal :=
  default VUndef (o !! k).

(** An optional string argument or environment variable under [||]. *)
Definition str_truthy (o : option string) : bool :=
  match o with
  | Some s => negb (String.eqb s "")
  | None => false
  end.

Definition str_or (a b : option string) : option string :=
  if str_truthy a then a else b.

(** [String.prototype.includes]. *)
Definition includes (s sub : string) : bool :=
  match String.index 0 sub s with
  | Some _ => true
  | None => false
  end.

(** [s.substring(0, n)]. *)
Definition prefix_of (n : nat) (s : string) : string := String.substring 0 n s.

End Js.
Import Js.

Infix "|||" := Js.or (at level 50, left associativity).

(** ** Computations that may throw *)

Record JsError : Type := mkError { message : string }.

Inductive Result (A : Type) : Type :=
| Ok (a : A)
| Throw (e : JsError).
Arguments Ok {A} a.
Arguments Throw {A} e.

Definition bind {A B} (r : Result A) (k : A -> Result B) : Result B :=
  match r with
  | Ok a => k a
  | Throw e => Throw e
  end.

(** [try { body } catch (e) { handler(e) }]. *)
Definition try_catch {A} (body : Result A) (handler : JsError -> Result A) : Result A :=
  match body with
  | Ok a => Ok a
  | Throw e => handler e
  end.

Notation "x <- c1 ;; c2" := (bind c1 (fun x => c2))
  (at level 100, c1 at next level, right associativity).

(** ** Listing Normalizer: [normalizeJobData] *)

Abbreviation RawListing := (gmap string JsVal).

Record Job : Type := mkJob {
  jobId : JsVal;
  companyName : JsVal;
  companyLogo : JsVal;
  jobTitle : JsVal;
  jobUrl : JsVal;
  applyUrl : JsVal;
  description : JsVal;
  scrapedAt : JsVal
}.

Section Normalizer.

(** [uuidv4 n] is the identifier returned by the [n]-th call of
    [uuidv4()] in the process; [today] is
    [new Date().toISOString().split('T')[0]]. *)
Variable uuidv4 : nat -> string.
Variable today : string.

(** The identifier the listing itself provides, [rawJob.id || rawJob.jobId]. *)
Definition providedId (rawJob : RawListing) : JsVal :=
  get rawJob "id" ||| get rawJob "jobId".

(** [normalizeJobData rawJob n] is the normalized job and the number of
    [uuidv4()] calls made so far, [n] of them before the call. [||]
    evaluates its right operand only when the left one is falsy, so a
    listing with an id consumes no identifier. *)
Definition normalizeJobData (rawJob : RawListing) (n : nat) : Job * nat :=
  let '(id, n') :=
    if truthy (providedId rawJob) then (providedId rawJob, n)
    else (VStr (uuidv4 n), S n) in
  ({| jobId := id;
      companyName := get rawJob "companyName" ||| get rawJob "company" ||| VStr "Unknown Company";
      companyLogo := get rawJob "companyLogo" ||| get rawJob "logo" ||| VNull;
      jobTitle := get rawJob "title" ||| get rawJob "jobTitle" ||| VStr "Untitled Role";
      jobUrl := get rawJob "url" ||| get rawJob "jobUrl" ||| VStr "";
      applyUrl := get rawJob "applyUrl" ||| get rawJob "url" ||| VStr "";
      description := get rawJob "description" ||| get rawJob "text" ||| VStr "";
      scrapedAt := get rawJob "postedAt" ||| VStr today |}, n').

(** [rawJobs.map(normalizeJobData)], threading the identifier supply. *)
Fixpoint normalizeAll (rawJobs : list RawListing) (n : nat) : list Job * nat :=
  match rawJobs with
  | [] => ([], n)
  | rawJob :: rest =>
      let '(job, n1) := normalizeJobData rawJob n in
      let '(jobs, n2) := normalizeAll rest n1 in
      (job :: jobs, n2)
  end.

End Normalizer.

(** ** Text Extractor: [extractText] *)

(** The temporary directory: the files on disk, by path. *)
Abbreviation FileSystem := (gmap string string).

Definition ENOENT : JsError := mkError "ENOENT: no such file or directory".

Definition readFileSync (fs : FileSystem) (filePath : string) : Result string :=
  match fs !! filePath with
  | Some buffer => Ok buffer
  | None => Throw ENOENT
  end.

Definition existsSync (fs : FileSystem) (filePath : string) : bool :=
  bool_decide (is_Some (fs !! filePath)).

Definition unlinkSync (fs : FileSystem) (filePath : string) : Result FileSystem :=
  match fs !! filePath with
  | Some _ => Ok (delete filePath fs)
  | None => Throw ENOENT
  end.

Definition parseFailure : JsError := mkError "Failed to parse CV file.".

Section Extractor.

(** The decoders: [pdfParse(buffer)] followed by [.text],
    [mammoth.extractRawText({ path })] followed by [.value], and
    [buffer.toString('utf-8')]. Each may throw. *)
Variable pdfParse : string -> Result string.
Variable mammoth_extractRawText : string -> Result string.
Variable toString_utf8 : string -> Result string.

(** The decode selected by the mime type, the body of the [try]. *)
Definition decode (buffer filePath mimeType : string) : Result string :=
  if String.eqb mimeType "application/pdf" then pdfParse buffer
  else if includes mimeType "word" || includes mimeType "officedocument"
       then mammoth_extractRawText filePath
       else toString_utf8 buffer.

(** [readFileSync] is called before the [try]: its exception is not
    translated. *)
Definition extractText (fs : FileSystem) (filePath mimeType : string) : Result string :=
  buffer <- readFileSync fs filePath ;;
  try_catch (decode buffer filePath mimeType) (fun _ => Throw parseFailure).

End Extractor.

(** ** Listing Source Adapter: [scrapeLinkedInJobs] *)

Record StartBody : Type := mkStartBody {
  startUrls : list string;
  maxItems : Z;
  limit : Z
}.

(** What the adapter does to the outside, in program order. *)
Inductive ScrapeEvent : Type :=
| EStart (actor token : string) (body : StartBody)
| EDelay (ms : Z)
| EPoll (actor runId token : string)
| EFetchItems (datasetId token : string) (limit : Z).

Inductive StartResponse : Type :=
| StartRejected (errText : string)
| StartAccepted (runId defaultDatasetId : string).

(** The listing provider as the adapter sees it in one run: the answer to
    the start call, the statuses returned by the successive polls, and the
    items of the dataset. Every answer is taken to be JSON of the shape
    the adapter reads; a reply it could not read is outside this type. *)
Record Provider : Type := mkProvider {
  startRes : StartResponse;
  pollStatuses : list string;
  datasetItems : list RawListing
}.

(** The result of a run that need not end: [Pending] is a run still
    polling when the observed statuses are exhausted. *)
Inductive Run (A : Type) : Type :=
| Returned (a : A)
| Raised (e : JsError)
| Pending.
Arguments Returned {A} a.
Arguments Raised {A} e.
Arguments Pending {A}.

Definition nonTerminal (status : string) : bool :=
  String.eqb status "RUNNING" || String.eqb status "READY".

Section Adapter.

(** [process.env.APIFY_API_TOKEN] and [process.env.APIFY_ACTOR_SLUG]. *)
Variable env_APIFY_API_TOKEN : option string.
Variable env_APIFY_ACTOR_SLUG : option string.

(** [while (status === 'RUNNING' || status === 'READY') { delay; poll }]:
    the events of the loop and the status it leaves with, if it does. *)
Fixpoint pollLoop (actor runId token : string) (status : string) (polls : list string)
  : list ScrapeEvent * option string :=
  if nonTerminal status then
    match polls with
    | [] => ([], None)
    | observed :: later =>
        let '(events, final) := pollLoop actor runId token observed later in
        (EDelay 5000 :: EPoll actor runId token :: events, final)
    end
  else ([], Some status).

Definition scrapeLinkedInJobs (provider : Provider) (searchUrl : string) (maxItems : Z)
    (apiToken actorSlug : option string) : list ScrapeEvent * Run (list RawListing) :=
  let token := str_or apiToken env_APIFY_API_TOKEN in
  let actor := default "curious_coder~linkedin-jobs-scraper"
                 (str_or (str_or actorSlug env_APIFY_ACTOR_SLUG)
                         (Some "curious_coder~linkedin-jobs-scraper")) in
  if negb (str_truthy token) then
    ([], Raised (mkError "Missing Apify API Token. Provide it in the UI settings or .env (APIFY_API_TOKEN)."))
  else
    let token := default "" token in
    let start := EStart actor token
                   {| startUrls := [searchUrl];
                      maxItems := Z.min maxItems 100;
                      limit := Z.min maxItems 100 |} in
    match startRes provider with
    | StartRejected err => ([start], Raised (mkError ("Apify start failed: " +:+ err)))
    | StartAccepted runId defaultDatasetId =>
        let '(events, final) := pollLoop actor runId token "RUNNING" (pollStatuses provider) in
        match final with
        | None => (start :: events, Pending)
        | Some status =>
            if negb (String.eqb status "SUCCEEDED") then
              (start :: events, Raised (mkError ("Apify run failed with status: " +:+ status)))
            else
              (start :: events ++ [EFetchItems defaultDatasetId token 100],
               Returned (datasetItems provider))
        end
    end.

End Adapter.

Definition isDelay (e : ScrapeEvent) : bool :=
  match e with EDelay _ => true | _ => false end.

Definition isPoll (e : ScrapeEvent) : bool :=
  match e with EPoll _ _ _ => true | _ => false end.

Definition startBodies (events : list ScrapeEvent) : list StartBody :=
  omap (fun e => match e with EStart _ _ body => Some body | _ => None end) events.

Definition delays (events : list ScrapeEvent) : nat := length (List.filter isDelay events).
Definition pollsMade (events : list ScrapeEvent) : nat := length (List.filter isPoll events).

(** ** Form fields: [parseInt] and the [||] defaults *)

Module Number.

(** The ASCII white space that [parseInt] skips. *)
Definition isWhiteSpace (c : ascii) : bool :=
  let n := nat_of_ascii c in
  (Nat.eqb n 9 || Nat.eqb n 10 || Nat.eqb n 11 || Nat.eqb n 12 || Nat.eqb n 13 || Nat.eqb n 32)%bool.

Fixpoint trimStart (s : string) : string :=
  match s with
  | String c rest => if isWhiteSpace c then trimStart rest else s
  | EmptyString => s
  end.

Definition digitValue (c : ascii) : option Z :=
  let n := Z.of_nat (nat_of_ascii c) in
  if (48 <=? n)%Z && (n <=? 57)%Z then Some (n - 48)%Z
  else if (97 <=? n)%Z && (n <=? 122)%Z then Some (n - 87)%Z
  else if (65 <=? n)%Z && (n <=? 90)%Z then Some (n - 55)%Z
  else None.

(** The value of the longest prefix of digits of the radix; [acc] is
    [None] until a digit has been read. *)
Fixpoint parseDigits (radix : Z) (acc : option Z) (s : string) : option Z :=
  match s with
  | String c rest =>
      match digitValue c with
      | Some d => if (d <? radix)%Z
                  then parseDigits radix (Some (radix * default 0%Z acc + d)%Z) rest
                  else acc
      | None => acc
      end
  | EmptyString => acc
  end.

(** [parseInt(field)] with no radix argument; [None] is [NaN]. A missing
    field is [undefined], which [parseInt] reads as the text
    ["undefined"]. *)
Definition parseInt (field : option string) : option Z :=
  let inputString := default "undefined" field in
  let s := trimStart inputString in
  let '(sign, s) :=
    match s with
    | String "-" rest => ((-1)%Z, rest)
    | String "+" rest => (1%Z, rest)
    | _ => (1%Z, s)
    end in
  let '(radix, s) :=
    match s with
    | String "0" (String "x" rest) | String "0" (String "X" rest) => (16%Z, rest)
    | _ => (10%Z, s)
    end in
  Z.mul sign <$> parseDigits radix None s.

(** [n || d] on a number: [NaN] and [0] are falsy. *)
Definition or (n : option Z) (d : Z) : Z :=
  match n with
  | Some z => if (z =? 0)%Z then d else z
  | None => d
  end.

(** [n.toString()] of an integer, as the form of [src/App.tsx] sends it. *)
Definition toString (n : Z) : string := NilZero.string_of_int (Z.to_int n).

End Number.

(** ** Job Scorer: [analyzeCvAndJobs] *)

Record CvData : Type := mkCvData {
  skills : list string;
  profileSummary : string;
  experienceHighlights : list string
}.

(** The parsed reply to a scoring request. The response schema declares
    [score] a number and [verdict] a string and requires neither. *)
Record ScoreResult : Type := mkScoreResult {
  score : option Z;
  verdict : option string
}.

(** [{ ...job, ...result }]: the fields of the job and those of the
    reply, which has no key of the job. *)
Record ScoredJob : Type := spread {
  listing : Job;
  scoring : ScoreResult
}.

Definition jobScore (j : ScoredJob) : option Z := score (scoring j).

Record AnalyzedResponse : Type := mkResponse {
  cv : CvData;
  jobs : list ScoredJob
}.

(** What [createScoringPrompt] embeds in the prompt. *)
Record ScoringPrompt : Type := mkPrompt {
  candidateSkills : list string;
  candidateSummary : string;
  promptTitle : JsVal;
  promptDescription : string
}.

Definition RangeError : JsError := mkError "Maximum call stack size exceeded".
Definition TypeError : JsError := mkError "job.description.substring is not a function".

(** [arr.length > size ? [arr.slice(0, size), ...chunkArray(arr.slice(size), size)] : [arr]].
    With [size = 0] and a non-empty array the recursion never reaches the
    second branch and the call stack overflows. *)
Equations? chunkArray {A : Type} (arr : list A) (size : nat) : Result (list (list A))
  by wf (length arr) lt :=
  chunkArray arr size with decide (size < length arr)%nat := {
    | left _ with size := {
        | O => Throw RangeError
        | S k => rest <- chunkArray (drop (S k) arr) (S k) ;; Ok (take (S k) arr :: rest) };
    | right _ => Ok [arr] }.
Proof. rewrite length_drop. lia. Qed.

(** [Array.prototype.sort(compare)]: a stable sort; [compare a b > 0]
    puts [a] after [b], and a [NaN] from the comparator counts as [0].
    [None] is [NaN]. *)
Section Sort.
Context {A : Type} (compare : A -> A -> option Z).

Definition after (a b : A) : bool :=
  match compare a b with
  | Some d => (0 <? d)%Z
  | None => false
  end.

Fixpoint insert_sorted (a : A) (l : list A) : list A :=
  match l with
  | [] => [a]
  | b :: rest => if after a b then b :: insert_sorted a rest else a :: b :: rest
  end.

Definition sort (l : list A) : list A := foldr insert_sorted [] l.
End Sort.

(** [(a, b) => b.score - a.score]; a missing score makes the difference
    [NaN]. *)
Definition byScoreDesc (a b : ScoredJob) : option Z :=
  match jobScore b, jobScore a with
  | Some sb, Some sa => Some (sb - sa)%Z
  | _, _ => None
  end.

Section Scorer.

(** The completion service. [generateProfile text] is the parsed reply
    to the CV request sent with [text]; [generateScore i prompt] is the
    parsed reply to the scoring request made for the [i]-th job, an
    object of the response schema. Either is [Throw] when the request
    fails or when [JSON.parse] rejects the reply. The requests of a chunk
    are issued in the order of its jobs and each reply is tied to its
    request, so the position of the job identifies the reply. *)
Variable generateProfile : string -> Result CvData.
Variable generateScore : nat -> ScoringPrompt -> Result ScoreResult.

Definition createScoringPrompt (cvData : CvData) (job : Job) : Result ScoringPrompt :=
  match description job with
  | VStr text =>
      Ok {| candidateSkills := skills cvData;
            candidateSummary := profileSummary cvData;
            promptTitle := jobTitle job;
            promptDescription := prefix_of 3000 text |}
  | _ => Throw TypeError
  end.

(** The callback of [chunk.map]: the scored job, or [None] for [null]. *)
Definition scoreJob (cvData : CvData) (threshold : Z) (i : nat) (job : Job)
  : option ScoredJob :=
  match
    try_catch
      (prompt <- createScoringPrompt cvData job ;;
       result <- generateScore i prompt ;;
       Ok (match score result with
           | Some s => if (threshold <=? s)%Z then Some (spread job result) else None
           | None => None
           end))
      (fun _ => Ok None)
  with
  | Ok r => r
  | Throw _ => None
  end.

(** [for (const chunk of chunks) { ... scoredJobs.push(...) }]; [first]
    is the position in [jobs] of the first job of the next chunk. *)
Fixpoint scoreChunks (cvData : CvData) (threshold : Z) (first : nat)
    (chunks : list (list Job)) (scoredJobs : list ScoredJob) : list ScoredJob :=
  match chunks with
  | [] => scoredJobs
  | chunk :: later =>
      let results := imap (fun p job => scoreJob cvData threshold (first + p) job) chunk in
      scoreChunks cvData threshold (first + length chunk) later
                  (scoredJobs ++ omap id results)
  end.

Definition analyzeCvAndJobs (cvText : string) (jobs : list Job) (threshold : Z)
  : Result AnalyzedResponse :=
  cvData <- generateProfile (prefix_of (N.to_nat 10000) cvText) ;;
  chunks <- chunkArray jobs 5 ;;
  let scoredJobs := scoreChunks cvData threshold 0 chunks [] in
  Ok {| cv := cvData; jobs := sort byScoreDesc scoredJobs |}.

End Scorer.

(** ** The endpoint [POST /api/analyze] *)

(** [req.file], as multer leaves it. *)
Record UploadedFile : Type := mkFile {
  path : string;
  mimetype : string
}.

(** [req.body]: the text fields of the form, absent ones [None]. *)
Record AnalyzeBody : Type := mkBody {
  searchUrl : string;
  maxJobs : option string;
  scoreThreshold : option string;
  apifyToken : option string;
  apifyActor : option string
}.

Record Request : Type := mkRequest {
  file : option UploadedFile;
  body : AnalyzeBody
}.

Inductive Payload : Type :=
| ErrorPayload (error : string)
| AnalysisPayload (result : AnalyzedResponse).

(** What the handler does to the disk and to the client, in program order. *)
Inductive HandlerEvent : Type :=
| Unlinked (filePath : string)
| Responded (status : Z) (payload : Payload).

(** The state of the process the handler reads and writes. *)
Record World : Type := mkWorld {
  files : FileSystem;
  uuidCalls : nat
}.

(** Everything outside the process, for the duration of one request. *)
Record Outside : Type := mkOutside {
  pdfParse : string -> Result string;
  mammoth_extractRawText : string -> Result string;
  toString_utf8 : string -> Result string;
  env_APIFY_API_TOKEN : option string;
  env_APIFY_ACTOR_SLUG : option string;
  provider : Provider;
  uuidv4 : nat -> string;
  today : string;
  generateProfile : string -> Result CvData;
  generateScore : nat -> ScoringPrompt -> Result ScoreResult
}.

Section Endpoint.

Variable out : Outside.

Definition requestedMaxJobs (b : AnalyzeBody) : Z :=
  Number.or (Number.parseInt (maxJobs b)) 50.

Definition requestedThreshold (b : AnalyzeBody) : Z :=
  Number.or (Number.parseInt (scoreThreshold b)) 60.

(** The body of the [try] up to the analysis result. *)
Definition pipeline (w : World) (f : UploadedFile) (b : AnalyzeBody) : Run AnalyzedResponse :=
  match extractText (pdfParse out) (mammoth_extractRawText out) (toString_utf8 out)
                    (files w) (path f) (mimetype f) with
  | Throw e => Raised e
  | Ok cvText =>
      match snd (scrapeLinkedInJobs (env_APIFY_API_TOKEN out) (env_APIFY_ACTOR_SLUG out)
                   (provider out) (searchUrl b) (requestedMaxJobs b)
                   (apifyToken b) (apifyActor b)) with
      | Pending => Pending
      | Raised e => Raised e
      | Returned rawJobs =>
          let normalizedJobs :=
            fst (normalizeAll (uuidv4 out) (today out) rawJobs (uuidCalls w)) in
          match analyzeCvAndJobs (generateProfile out) (generateScore out)
                                 cvText normalizedJobs (requestedThreshold b) with
          | Throw e => Raised e
          | Ok analysisResult => Returned analysisResult
          end
      end
  end.

(** The [catch] block: remove the upload if it is still there, then
    answer 502 with the message of the error. *)
Definition onError (fs : FileSystem) (f : UploadedFile) (error : JsError)
  : FileSystem * list HandlerEvent :=
  let respond := Responded 502 (ErrorPayload (message error)) in
  if existsSync fs (path f) then
    match unlinkSync fs (path f) with
    | Ok fs' => (fs', [Unlinked (path f); respond])
    | Throw _ => (fs, [])
    end
  else (fs, [respond]).

(** The handler: the files left on disk and the events, in order. A
    request whose scrape is still polling has produced no event yet. *)
Definition analyzeHandler (w : World) (req : Request) : FileSystem * list HandlerEvent :=
  match file req with
  | None => (files w, [Responded 400 (ErrorPayload "No CV file uploaded.")])
  | Some f =>
      match pipeline w f (body req) with
      | Pending => (files w, [])
      | Raised e => onError (files w) f e
      | Returned analysisResult =>
          match unlinkSync (files w) (path f) with
          | Ok fs' => (fs', [Unlinked (path f); Responded 200 (AnalysisPayload analysisResult)])
          | Throw e => onError (files w) f e
          end
      end
  end.

End Endpoint.

(** ** The form of [src/App.tsx]: [handleSubmit] *)

Module App.

(** The [File] picked in the form: its bytes and its MIME type. *)
Record CvFile : Type := mkCvFile {
  content : string;
  mimeType : string
}.

(** The state the submission reads. *)
Record State : Type := mkState {
  cvFile : option CvFile;
  searchUrl : string;
  maxJobs : Z;
  scoreThreshold : Z;
  apifyToken : string;
  apifyActor : string
}.

(** What a submission comes to before the network: a message for the
    user and no request, or the multipart form that is posted. *)
Inductive Submission : Type :=
| Refused (errorMessage : string)
| Posted (cv : CvFile) (fields : AnalyzeBody).

Definition handleSubmit (st : State) : Submission :=
  match cvFile st with
  | None => Refused "Please upload a CV."
  | Some cv =>
      if negb (includes (searchUrl st) "linkedin.com/jobs/search")
      then Refused "Please enter a valid LinkedIn search URL."
      else Posted cv
             (mkBody (searchUrl st)
                     (Some (Number.toString (maxJobs st)))
                     (Some (Number.toString (scoreThreshold st)))
                     (Some (apifyToken st))
                     (Some (apifyActor st)))
  end.

End App.

(** ** The endpoint [POST /api/generate-cover]: the prompt *)

(** [req.body.cvContext]; either list may be missing. *)
Record CvContext : Type := mkCvContext {
  contextSkills : option (list string);
  contextHighlights : option (list string)
}.

(** What the prompt of the cover letter embeds. *)
Record CoverPrompt : Type := mkCoverPrompt {
  coverJobTitle : JsVal;
  coverCompany : JsVal;
  coverJobContext : string;
  coverSkills : string;
  coverExperience : string
}.

(** [list.join(separator)] on strings. *)
Definition join (l : list string) (separator : string) : string :=
  String.concat separator l.

(** The template of the handler: [job.description.substring(0, 1000)]
    followed by three dots, [(cvContext?.skills || []).join(', ')] and
    [(cvContext?.experienceHighlights || []).join('; ')]. *)
Definition coverLetterPrompt (job : Job) (cvContext : option CvContext) : Result CoverPrompt :=
  match description job with
  | VStr text =>
      Ok {| coverJobTitle := jobTitle job;
            coverCompany := companyName job;
            coverJobContext := prefix_of 1000 text +:+ "...";
            coverSkills := join (default [] (cvContext ≫= contextSkills)) ", ";
            coverExperience := join (default [] (cvContext ≫= contextHighlights)) "; " |}
  | _ => Throw TypeError
  end.

(** A field of [req.body.cvContext] as [express.json()] delivers it:
    missing, an array of strings, or any other JSON value. [cvContext]
    itself is [None] when it is missing or is not an object, for then
    [cvContext?.skills] is [undefined]. *)
Inductive ContextField : Type :=
| FieldMissing
| FieldArray (items : list string)
| FieldValue (v : JsVal).

Record ContextBody : Type := mkContextBody {
  bodySkills : ContextField;
  bodyHighlights : ContextField
}.

Definition JoinTypeError : JsError := mkError "(intermediate value).join is not a function".

(** [(field || []).join(separator)]: a falsy value gives way to the
    empty array; a truthy value that is not an array has no [join]. *)
Definition joinField (field : ContextField) (separator : string) : Result string :=
  match field with
  | FieldMissing => Ok (join [] separator)
  | FieldArray items => Ok (join items separator)
  | FieldValue v => if truthy v then Throw JoinTypeError else Ok (join [] separator)
  end.


(** The template of the handler on the request body as it comes; the
    placeholders are evaluated in the order of the text. *)
Definition coverLetterPromptOfBody (job : Job) (cvContext : option ContextBody)
  : Result CoverPrompt :=
  match description job with
  | VStr text =>
      skillsLine <- joinField (default FieldMissing (bodySkills <$> cvContext)) ", " ;;
      experienceLine <- joinField (default FieldMissing (bodyHighlights <$> cvContext)) "; " ;;
      Ok {| coverJobTitle := jobTitle job;
            coverCompany := companyName job;
            coverJobContext := prefix_of 1000 text +:+ "...";
            coverSkills := skillsLine;
            coverExperience := experienceLine |}
  | _ => Throw TypeError
  end.

(** A context whose fields are missing or lists, as a request body. *)
Definition contextBody (cvContext : CvContext) : ContextBody :=
  {| bodySkills := from_option FieldArray FieldMissing (contextSkills cvContext);
     bodyHighlights := from_option FieldArray FieldMissing (contextHighlights cvContext) |}.

(** ** Notions used in the statements *)

(** The reply of the completion service to the scoring of the [i]-th
    job, or the exception raised on the way to it. *)
Definition scoringOf (generateScore : nat -> ScoringPrompt -> Result ScoreResult)
    (cvData : CvData) (i : nat) (job : Job) : Result ScoreResult :=
  prompt <- createScoringPrompt cvData job ;; generateScore i prompt.

(** The scored jobs of [jobs] in input order, as one pass over the list;
    [first] is the position of the head of [jobs]. *)
Definition scoreAll (generateScore : nat -> ScoringPrompt -> Result ScoreResult)
    (cvData : CvData) (threshold : Z) (first : nat) (jobs : list Job) : list ScoredJob :=
  omap id (imap (fun p job => scoreJob generateScore cvData threshold (first + p) job) jobs).

(** The completion service seen by a request from which the job at
    position [n] has been taken out: later jobs move up by one. *)
Definition skipPosition (n : nat) (generateScore : nat -> ScoringPrompt -> Result ScoreResult)
  : nat -> ScoringPrompt -> Result ScoreResult :=
  fun i => generateScore (if (i <? n)%nat then i else S i).

(** One delay, then one poll, for each status observed. *)
Definition rounds (actor runId token : string) (observed : list string) : list ScrapeEvent :=
  observed ≫= (fun _ => [EDelay 5000; EPoll actor runId token]).

(** What the specification asks the Job Scorer to keep of one job, said
    without the code: the job with the answer of the completion service
    spread over it when that answer carries a score of at least [t], and
    nothing when the score is lower or missing or when there is no
    answer because scoring threw. *)
Definition answerKept (t : Z) (job : Job) (answer : Result ScoreResult) : option ScoredJob :=
  match answer with
  | Ok result =>
      match score result with
      | Some s => if (t <=? s)%Z then Some (spread job result) else None
      | None => None
      end
  | Throw _ => None
  end.

(** The jobs the specification asks to keep of a list, in its order;
    [first] is the position of the head of [jobs] in the request. *)
Definition keptJobs (generateScore : nat -> ScoringPrompt -> Result ScoreResult)
    (cvData : CvData) (t : Z) (first : nat) (jobs : list Job) : list ScoredJob :=
  omap id (imap (fun p job =>
                   answerKept t job (scoringOf generateScore cvData (first + p) job))
                jobs).

(** The statuses a poll loop consumes from those the provider would
    answer: all up to and including the first that is neither RUNNING
    nor READY; and that status, if there is one. *)
Fixpoint observedUntilTerminal (polls : list string) : list string :=
  match polls with
  | [] => []
  | status :: later =>
      if nonTerminal status then status :: observedUntilTerminal later else [status]
  end.

Fixpoint firstTerminal (polls : list string) : option string :=
  match polls with
  | [] => None
  | status :: later => if nonTerminal status then firstTerminal later else Some status
  end.

(** A scored job carries a score of at least [t]. *)
Definition scoreAtLeast (t : Z) (j : ScoredJob) : Prop :=
  exists s, jobScore j = Some s /\ (t <= s)%Z.

(** [a] may precede [b] in a list sorted by score, highest first. *)
Definition scoreGe (a b : ScoredJob) : Prop :=
  exists sa sb, jobScore a = Some sa /\ jobScore b = Some sb /\ (sb <= sa)%Z.

(** ** Sample data *)

Definition sampleCv : CvData :=
  {| skills := ["Go"; "Kubernetes"];
     profileSummary := "Senior Go engineer, 8 years, distributed systems";
     experienceHighlights := ["Ran a fleet of storage services"] |}.

Definition sampleJob (id : Z) (title : string) : Job :=
  {| jobId := VNum id;
     companyName := VStr "Unknown Company";
     companyLogo := VNull;
     jobTitle := VStr title;
     jobUrl := VStr "";
     applyUrl := VStr "";
     description := VStr "Build and operate services.";
     scrapedAt := VStr "2025-01-15" |}.

Definition sampleJobs : list Job :=
  [sampleJob 1 "Backend Engineer"; sampleJob 2 "Junior Frontend Intern";
   sampleJob 3 "Site Reliability Engineer"; sampleJob 4 "Platform Engineer";
   sampleJob 5 "Data Engineer"; sampleJob 6 "Staff Engineer"].

(** A completion service that profiles every CV as [sampleCv], fails on
    the job at position 3 and scores the others by position. *)
Definition sampleProfile : string -> Result CvData := fun _ => Ok sampleCv.

Definition sampleScore : nat -> ScoringPrompt -> Result ScoreResult :=
  fun i _ =>
    match i with
    | 0%nat => Ok {| score := Some 72%Z; verdict := Some "Good match." |}
    | 1%nat => Ok {| score := Some 35%Z; verdict := Some "Poor match." |}
    | 2%nat => Ok {| score := Some 91%Z; verdict := Some "Perfect match." |}
    | 3%nat => Throw (mkError "503 Service Unavailable")
    | 4%nat => Ok {| score := Some 64%Z; verdict := None |}
    | _ => Ok {| score := Some 91%Z; verdict := Some "Perfect match." |}
    end.

(** Listings as a provider may return them: two records of the same
    posting, a record that names its URL [jobUrl] only, and records with
    no identifier. *)
Definition repeatedListings : list RawListing :=
  [ {[ "id" := VStr "4012345678"; "title" := VStr "Backend Engineer" ]};
    {[ "id" := VStr "4012345678"; "title" := VStr "Backend Engineer" ]} ].

Definition aliasOnlyListing : RawListing :=
  {[ "jobUrl" := VStr "https://www.linkedin.com/jobs/view/4012345678" ]}.

Definition anonymousListings : list RawListing :=
  [ ∅; {[ "id" := VNum 4012345678 ]}; {[ "title" := VStr "Data Engineer" ]} ].

(** An identifier supply for the examples: the call number in decimal. *)
Definition countingUuid : nat -> string := pretty.

(** A provider whose run is seen running twice and then succeeded, and
    one whose run is seen running once and then failed. *)
Definition succeedingProvider : Provider :=
  {| startRes := StartAccepted "run-1" "dataset-1";
     pollStatuses := ["RUNNING"; "RUNNING"; "SUCCEEDED"];
     datasetItems := anonymousListings |}.


(** An upload on disk, decoders, and a request as the form of
    [src/App.tsx] sends it. *)
Definition sampleUpload : UploadedFile :=
  {| path := "/srv/job-scout/temp/3f2a9c51"; mimetype := "application/pdf" |}.

Definition sampleFiles : FileSystem :=
  {[ "/srv/job-scout/temp/3f2a9c51" := "%PDF-1.7 Senior Go engineer";
     "/srv/job-scout/temp/cover-77.pdf" := "%PDF-1.7 Dear hiring manager" ]}.

Definition corruptPdf : string -> Result string :=
  fun _ => Throw (mkError "Invalid PDF structure").

Definition readablePdf : string -> Result string :=
  fun _ => Ok "Senior Go engineer, 8 years, distributed systems".

Definition sampleOutside : Outside :=
  {| pdfParse := readablePdf;
     mammoth_extractRawText := fun _ => Throw ENOENT;
     toString_utf8 := Ok;
     env_APIFY_API_TOKEN := Some "apify_api_token";
     env_APIFY_ACTOR_SLUG := None;
     provider := succeedingProvider;
     uuidv4 := countingUuid;
     today := "2025-01-15";
     generateProfile := sampleProfile;
     generateScore := sampleScore |}.

(** The same surroundings with a PDF decoder that rejects the upload. *)
Definition corruptOutside : Outside :=
  {| pdfParse := corruptPdf;
     mammoth_extractRawText := mammoth_extractRawText sampleOutside;
     toString_utf8 := toString_utf8 sampleOutside;
     env_APIFY_API_TOKEN := env_APIFY_API_TOKEN sampleOutside;
     env_APIFY_ACTOR_SLUG := env_APIFY_ACTOR_SLUG sampleOutside;
     provider := provider sampleOutside;
     uuidv4 := uuidv4 sampleOutside;
     today := today sampleOutside;
     generateProfile := generateProfile sampleOutside;
     generateScore := generateScore sampleOutside |}.

Definition sampleWorld : World := {| files := sampleFiles; uuidCalls := 0 |}.

Definition sampleBody : AnalyzeBody :=
  {| searchUrl := "https://www.linkedin.com/jobs/search?keywords=go";
     maxJobs := Some (Number.toString 50);
     scoreThreshold := Some (Number.toString 70);
     apifyToken := Some "";
     apifyActor := Some "" |}.



(** ** Further notions used in the statements *)

(** The test [result.score >= threshold] on a scored job. *)
Definition scoresAtLeast (t : Z) (j : ScoredJob) : bool :=
  match jobScore j with
  | Some s => (t <=? s)%Z
  | None => false
  end.

(** A CV of 10,500 characters. *)
Definition longCvText : string :=
  String.concat "" (replicate 500 "Senior Go engineer. ") +:+
  String.concat "" (replicate 25 "Distributed systems ").

(** The credentials a request to the provider carries, and the dataset
    reads among the events. *)
Definition eventToken (e : ScrapeEvent) : option string :=
  match e with
  | EStart _ token _ | EPoll _ _ token | EFetchItems _ token _ => Some token
  | EDelay _ => None
  end.

Definition eventActor (e : ScrapeEvent) : option string :=
  match e with
  | EStart actor _ _ | EPoll actor _ _ => Some actor
  | EFetchItems _ _ _ | EDelay _ => None
  end.

Definition fetches (events : list ScrapeEvent) : list (string * Z) :=
  omap (fun e => match e with
                 | EFetchItems datasetId _ limit => Some (datasetId, limit)
                 | _ => None
                 end) events.

(** A provider whose run never leaves RUNNING while it is watched. *)
Definition stuckProvider : Provider :=
  {| startRes := StartAccepted "run-3" "dataset-3";
     pollStatuses := ["READY"; "RUNNING"; "RUNNING"; "RUNNING"];
     datasetItems := anonymousListings |}.

(** [upload.single('cvFile')] with [multer({ dest: TEMP_DIR })]: the
    uploaded bytes are written to the temporary directory under a name
    multer draws, before the handler runs. *)
Definition multerUpload (w : World) (tmpPath content : string) : World :=
  {| files := <[tmpPath := content]> (files w); uuidCalls := uuidCalls w |}.

(** The surroundings of the samples with a provider whose run stays
    RUNNING. *)
Definition stuckOutside : Outside :=
  {| pdfParse := pdfParse sampleOutside;
     mammoth_extractRawText := mammoth_extractRawText sampleOutside;
     toString_utf8 := toString_utf8 sampleOutside;
     env_APIFY_API_TOKEN := env_APIFY_API_TOKEN sampleOutside;
     env_APIFY_ACTOR_SLUG := env_APIFY_ACTOR_SLUG sampleOutside;
     provider := stuckProvider;
     uuidv4 := uuidv4 sampleOutside;
     today := today sampleOutside;
     generateProfile := generateProfile sampleOutside;
     generateScore := generateScore sampleOutside |}.

(** The number a string of decimal digits denotes, read from the left
    onto [acc]. *)
Fixpoint uintValue (d : Decimal.uint) (acc : Z) : Z :=
  match d with
  | Decimal.Nil => acc
  | Decimal.D0 l => uintValue l (10 * acc)%Z
  | Decimal.D1 l => uintValue l (10 * acc + 1)%Z
  | Decimal.D2 l => uintValue l (10 * acc + 2)%Z
  | Decimal.D3 l => uintValue l (10 * acc + 3)%Z
  | Decimal.D4 l => uintValue l (10 * acc + 4)%Z
  | Decimal.D5 l => uintValue l (10 * acc + 5)%Z
  | Decimal.D6 l => uintValue l (10 * acc + 6)%Z
  | Decimal.D7 l => uintValue l (10 * acc + 7)%Z
  | Decimal.D8 l => uintValue l (10 * acc + 8)%Z
  | Decimal.D9 l => uintValue l (10 * acc + 9)%Z
  end.

(** [Number.MAX_SAFE_INTEGER]: up to it, and down to its opposite,
    [toString] prints an integer in plain decimal. *)
Definition MAX_SAFE_INTEGER : Z := 9007199254740991.

(** The form as it is first shown, with a CV picked and a search pasted. *)
Definition sampleForm : App.State :=
  {| App.cvFile := Some {| App.content := "%PDF-1.7 Senior Go engineer";
                           App.mimeType := "application/pdf" |};
     App.searchUrl := "https://www.linkedin.com/jobs/search?keywords=go";
     App.maxJobs := 50;
     App.scoreThreshold := 60;
     App.apifyToken := "";
     App.apifyActor := "curious_coder~linkedin-jobs-scraper" |}.

(** * Properties *)

(** ** Chunking and the scoring loop *)

Lemma chunkArray_concat {A : Type} (arr : list A) (size : nat) :
  size <> 0%nat ->
  exists chunks, chunkArray arr size = Ok chunks /\ concat chunks = arr.
Proof.
  funelim (chunkArray arr size); intros Hsize.
  - exists [arr]. split; [reflexivity |]. cbn. apply app_nil_r.
  - congruence.
  - match goal with
    | IH : _ -> exists c, chunkArray _ _ = Ok c /\ _ |- _ =>
        destruct (IH Hsize) as (rest & Hrest & Hcat)
    end.
    rewrite Hrest. cbn. eexists. split; [reflexivity |].
    cbn. rewrite Hcat. apply take_drop.
Qed.

Lemma chunkArray_bounded {A : Type} (arr : list A) (size : nat) chunks :
  chunkArray arr size = Ok chunks ->
  Forall (fun chunk => (length chunk <= size)%nat) chunks.
Proof.
  revert chunks. funelim (chunkArray arr size); intros chunks Hc.
  - injection Hc as <-. repeat constructor. lia.
  - discriminate.
  - match goal with
    | IH : forall c, chunkArray ?a ?s = Ok c -> _ |- _ =>
        destruct (chunkArray a s) as [rest |] eqn:Hrest; cbn in Hc; [| discriminate];
        specialize (IH rest eq_refl)
    end.
    injection Hc as <-. constructor; [| assumption].
    rewrite length_take. lia.
Qed.

Section ScorerFacts.

Variable generateScore : nat -> ScoringPrompt -> Result ScoreResult.
Variable cvData : CvData.
Variable threshold : Z.

Lemma scoreJob_scoringOf i job :
  scoreJob generateScore cvData threshold i job =
  match scoringOf generateScore cvData i job with
  | Ok result =>
      match score result with
      | Some s => if (threshold <=? s)%Z then Some (spread job result) else None
      | None => None
      end
  | Throw _ => None
  end.
Proof.
  unfold scoreJob, scoringOf.
  destruct (createScoringPrompt cvData job) as [prompt |]; cbn; [| reflexivity].
  destruct (generateScore i prompt); reflexivity.
Qed.

Lemma scoreJob_Some i job j :
  scoreJob generateScore cvData threshold i job = Some j ->
  listing j = job /\ scoringOf generateScore cvData i job = Ok (scoring j) /\
  scoreAtLeast threshold j.
Proof.
  rewrite scoreJob_scoringOf.
  destruct (scoringOf generateScore cvData i job) as [result |]; [| discriminate].
  destruct (score result) as [s |] eqn:Hs; [| discriminate].
  destruct (Z.leb_spec threshold s); [| discriminate].
  intros [= <-]. repeat split. exists s. auto.
Qed.

Lemma scoreAll_app first l1 l2 :
  scoreAll generateScore cvData threshold first (l1 ++ l2) =
  scoreAll generateScore cvData threshold first l1 ++
  scoreAll generateScore cvData threshold (first + length l1) l2.
Proof.
  unfold scoreAll. rewrite imap_app, omap_app. f_equal. f_equal.
  apply imap_ext. intros i x _. f_equal. lia.
Qed.

Lemma scoreAll_cons first job l :
  scoreAll generateScore cvData threshold first (job :: l) =
  option_list (scoreJob generateScore cvData threshold first job) ++
  scoreAll generateScore cvData threshold (S first) l.
Proof.
  change (job :: l) with ([job] ++ l). rewrite scoreAll_app. f_equal.
  - unfold scoreAll. cbn. rewrite Nat.add_0_r.
    destruct (scoreJob generateScore cvData threshold first job); reflexivity.
  - f_equal. cbn. lia.
Qed.

(** The loop over the chunks scores the jobs as one pass over their
    concatenation does. *)
Lemma scoreChunks_scoreAll chunks : forall first scoredJobs,
  scoreChunks generateScore cvData threshold first chunks scoredJobs =
  scoredJobs ++ scoreAll generateScore cvData threshold first (concat chunks).
Proof.
  induction chunks as [| chunk later IH]; intros first scoredJobs;
    cbn [scoreChunks concat].
  - unfold scoreAll. cbn. now rewrite app_nil_r.
  - rewrite IH, scoreAll_app, app_assoc. reflexivity.
Qed.

Lemma scoreAll_atLeast jobs : forall first,
  Forall (scoreAtLeast threshold) (scoreAll generateScore cvData threshold first jobs).
Proof.
  induction jobs as [| job l IH]; intros first.
  - constructor.
  - rewrite scoreAll_cons. apply Forall_app. split; [| apply IH].
    destruct (scoreJob generateScore cvData threshold first job) as [j |] eqn:Hj; cbn.
    + constructor; [| constructor]. now apply scoreJob_Some in Hj.
    + constructor.
Qed.

End ScorerFacts.

(** ** The sort *)

Section SortFacts.
Context {A : Type} (compare : A -> A -> option Z).

Lemma insert_sorted_Permutation a l : insert_sorted compare a l ≡ₚ a :: l.
Proof.
  induction l as [| b rest IH]; cbn; [reflexivity |].
  destruct (after compare a b); [| reflexivity].
  rewrite IH. apply perm_swap.
Qed.

Lemma sort_Permutation l : sort compare l ≡ₚ l.
Proof.
  induction l as [| a rest IH]; cbn; [reflexivity |].
  rewrite insert_sorted_Permutation. now rewrite IH.
Qed.

Lemma sort_Forall (P : A -> Prop) l : Forall P l -> Forall P (sort compare l).
Proof. intros H. now rewrite sort_Permutation. Qed.

End SortFacts.

Lemma scoreAtLeast_scored t j : scoreAtLeast t j -> is_Some (jobScore j).
Proof. intros (s & Hs & _). eauto. Qed.

Lemma scoreGe_trans a b c : scoreGe a b -> scoreGe b c -> scoreGe a c.
Proof.
  intros (sa & sb & Ha & Hb & Hab) (sb' & sc & Hb' & Hc & Hbc).
  exists sa, sc. repeat split; try assumption.
  rewrite Hb in Hb'. injection Hb' as <-. lia.
Qed.

Lemma after_byScoreDesc a b sa sb :
  jobScore a = Some sa -> jobScore b = Some sb ->
  after byScoreDesc a b = (sa <? sb)%Z.
Proof.
  intros Ha Hb. unfold after, byScoreDesc. rewrite Ha, Hb.
  destruct (Z.ltb_spec 0 (sb - sa)), (Z.ltb_spec sa sb); reflexivity || lia.
Qed.

Lemma insert_sorted_byScoreDesc a l :
  is_Some (jobScore a) -> Forall (fun j => is_Some (jobScore j)) l ->
  StronglySorted scoreGe l ->
  StronglySorted scoreGe (insert_sorted byScoreDesc a l).
Proof.
  intros [sa Ha] Hl Hsorted.
  induction Hsorted as [| b rest Hrest IH Hb]; cbn.
  - repeat constructor.
  - apply Forall_cons in Hl as [[sb Hsb] Hl].
    rewrite (after_byScoreDesc a b sa sb Ha Hsb).
    destruct (Z.ltb_spec sa sb) as [Hlt | Hge].
    + constructor; [now apply IH |].
      rewrite insert_sorted_Permutation. constructor; [| assumption].
      exists sb, sa. repeat split; try assumption. lia.
    + assert (Hab : scoreGe a b) by (exists sa, sb; repeat split; try assumption; lia).
      constructor; [now constructor |].
      constructor; [assumption |].
      eapply Forall_impl; [exact Hb |]. intros c Hbc. exact (scoreGe_trans a b c Hab Hbc).
Qed.

Lemma sort_byScoreDesc_sorted l :
  Forall (fun j => is_Some (jobScore j)) l ->
  StronglySorted scoreGe (sort byScoreDesc l).
Proof.
  induction 1 as [| a rest Ha Hrest IH]; cbn.
  - constructor.
  - apply insert_sorted_byScoreDesc; [assumption | | assumption].
    now apply sort_Forall.
Qed.

(** ** [analyzeCvAndJobs] as a single pass *)

Lemma analyzeCvAndJobs_scoreAll generateProfile generateScore cvText jobs threshold :
  analyzeCvAndJobs generateProfile generateScore cvText jobs threshold =
  (cvData <- generateProfile (prefix_of (N.to_nat 10000) cvText) ;;
   Ok {| cv := cvData;
         jobs := sort byScoreDesc (scoreAll generateScore cvData threshold 0 jobs) |}).
Proof.
  unfold analyzeCvAndJobs.
  destruct (generateProfile _) as [cvData |]; cbn; [| reflexivity].
  destruct (chunkArray_concat jobs 5 ltac:(lia)) as (chunks & -> & Hcat). cbn.
  now rewrite scoreChunks_scoreAll, Hcat.
Qed.

Lemma scoreAll_elem_of generateScore cvData T normalizedJobs : forall first j,
  j ∈ scoreAll generateScore cvData T first normalizedJobs <->
  exists i job, normalizedJobs !! i = Some job /\
                scoreJob generateScore cvData T (first + i) job = Some j.
Proof.
  induction normalizedJobs as [| job rest IH]; intros first j.
  - unfold scoreAll. cbn. split.
    + intros H. now apply elem_of_nil in H.
    + intros (i & job & Hi & _). discriminate.
  - rewrite scoreAll_cons, elem_of_app, IH. split.
    + intros [Hhead | (i & job' & Hi & Hj)].
      * exists 0%nat, job. rewrite Nat.add_0_r. split; [reflexivity |].
        destruct (scoreJob generateScore cvData T first job); cbn in Hhead.
        -- apply list_elem_of_singleton in Hhead. now subst.
        -- now apply elem_of_nil in Hhead.
      * exists (S i), job'. split; [assumption |].
        now replace (first + S i)%nat with (S first + i)%nat by lia.
    + intros ([| i] & job' & Hi & Hj).
      * left. cbn in Hi. injection Hi as <-. rewrite Nat.add_0_r in Hj.
        rewrite Hj. cbn. apply list_elem_of_here.
      * right. exists i, job'. split; [assumption |].
        now replace (S first + i)%nat with (first + S i)%nat by lia.
Qed.

Lemma answerKept_scoreJob generateScore cvData T i job :
  scoreJob generateScore cvData T i job =
  answerKept T job (scoringOf generateScore cvData i job).
Proof. apply scoreJob_scoringOf. Qed.

(** The scoring pass of the code keeps what the specification asks. *)
Lemma scoreAll_keptJobs generateScore cvData T first normalizedJobs :
  scoreAll generateScore cvData T first normalizedJobs =
  keptJobs generateScore cvData T first normalizedJobs.
Proof.
  unfold scoreAll, keptJobs. f_equal. apply imap_ext.
  intros p job _. apply answerKept_scoreJob.
Qed.

(** ** Threshold, failure policy and ordering of the response *)

(** C1. For every call of [analyzeCvAndJobs] with threshold [T] whose CV
    profiling succeeds, a response is returned, every job of the response
    carries a score of at least [T], and the jobs of the response are,
    up to their order, exactly the jobs that the completion service
    scored at [T] or more, each once, with that answer: a job scored
    below [T] has no entry in the response, under any score or form. *)
Theorem analyzed_jobs_meet_threshold
    generateProfile generateScore cvText (normalizedJobs : list Job) T cvData :
  generateProfile (prefix_of (N.to_nat 10000) cvText) = Ok cvData ->
  exists response,
    analyzeCvAndJobs generateProfile generateScore cvText normalizedJobs T = Ok response /\
    Forall (scoreAtLeast T) (jobs response) /\
    jobs response ≡ₚ keptJobs generateScore cvData T 0 normalizedJobs /\
    length (jobs response) =
      length (filter (fun j => is_Some j)
                (imap (fun i job =>
                         answerKept T job (scoringOf generateScore cvData i job))
                      normalizedJobs)).
Proof.
  intros Hcv. rewrite analyzeCvAndJobs_scoreAll, Hcv. cbn.
  eexists. split; [reflexivity |]. cbn.
  split; [apply sort_Forall, scoreAll_atLeast |].
  assert (Hkept : sort byScoreDesc (scoreAll generateScore cvData T 0 normalizedJobs)
                  ≡ₚ keptJobs generateScore cvData T 0 normalizedJobs)
    by (rewrite sort_Permutation; now rewrite scoreAll_keptJobs).
  split; [exact Hkept |].
  rewrite Hkept. unfold keptJobs. cbn [Nat.add].
  generalize (imap (fun i job => answerKept T job (scoringOf generateScore cvData i job))
                   normalizedJobs).
  intros answers. induction answers as [| [j |] rest IH]; [reflexivity | |].
  - rewrite filter_cons. destruct (decide (is_Some (Some j))) as [_ | Hno];
      [cbn; now rewrite <- IH | exfalso; apply Hno; eauto].
  - rewrite filter_cons. destruct (decide (is_Some (@None ScoredJob))) as [[x Hx] | _];
      [discriminate | exact IH].
Qed.

Lemma analyzed_jobs_meet_threshold_sample :
  exists response,
    analyzeCvAndJobs sampleProfile sampleScore "cv" sampleJobs 60 = Ok response /\
    Forall (scoreAtLeast 60) (jobs response) /\
    jobs response ≡ₚ keptJobs sampleScore sampleCv 60 0 sampleJobs /\
    length (jobs response) =
      length (filter (fun j => is_Some j)
                (imap (fun i job =>
                         answerKept 60 job (scoringOf sampleScore sampleCv i job))
                      sampleJobs)).
Proof. apply (analyzed_jobs_meet_threshold sampleProfile sampleScore "cv" sampleJobs 60 sampleCv). reflexivity. Defined.

(** C3. The jobs of every response of [analyzeCvAndJobs] are sorted by
    score, highest first: each job scores at least as much as every job
    after it. *)
Theorem analyzed_jobs_sorted
    generateProfile generateScore cvText (normalizedJobs : list Job) T cvData :
  generateProfile (prefix_of (N.to_nat 10000) cvText) = Ok cvData ->
  exists response,
    analyzeCvAndJobs generateProfile generateScore cvText normalizedJobs T = Ok response /\
    StronglySorted scoreGe (jobs response).
Proof.
  intros Hcv. rewrite analyzeCvAndJobs_scoreAll, Hcv. cbn.
  eexists. split; [reflexivity |]. cbn.
  apply sort_byScoreDesc_sorted.
  eapply Forall_impl; [apply scoreAll_atLeast |].
  intros j. apply scoreAtLeast_scored.
Qed.

Lemma analyzed_jobs_sorted_sample :
  exists response,
    analyzeCvAndJobs sampleProfile sampleScore "cv" sampleJobs 60 = Ok response /\
    StronglySorted scoreGe (jobs response).
Proof. apply (analyzed_jobs_sorted sampleProfile sampleScore "cv" sampleJobs 60 sampleCv). reflexivity. Defined.

Lemma scoreAll_ext g1 g2 cvData T jobs : forall first1 first2,
  (forall p job, jobs !! p = Some job ->
     scoreJob g1 cvData T (first1 + p) job = scoreJob g2 cvData T (first2 + p) job) ->
  scoreAll g1 cvData T first1 jobs = scoreAll g2 cvData T first2 jobs.
Proof.
  intros first1 first2 H. unfold scoreAll. f_equal. now apply imap_ext.
Qed.

Lemma scoreJob_skipPosition n generateScore cvData T i job :
  scoreJob (skipPosition n generateScore) cvData T i job =
  scoreJob generateScore cvData T (if (i <? n)%nat then i else S i) job.
Proof. reflexivity. Qed.

(** C2. When the scoring of one job throws, whatever the exception and
    wherever the job stands in the list, [analyzeCvAndJobs] still returns
    a response; only that job is missing from it: every other job, of
    its chunk of five or of another chunk, that the completion service
    scored at the threshold or more is in the response with its answer,
    the response holds exactly those jobs, and it is the response the
    same request gets without the failing job. *)
Theorem scoring_failure_drops_only_that_job
    generateProfile generateScore cvText (before after : list Job) (failing : Job) T cvData e :
  generateProfile (prefix_of (N.to_nat 10000) cvText) = Ok cvData ->
  scoringOf generateScore cvData (length before) failing = Throw e ->
  exists response,
    analyzeCvAndJobs generateProfile generateScore cvText
                     (before ++ failing :: after) T = Ok response /\
    analyzeCvAndJobs generateProfile (skipPosition (length before) generateScore) cvText
                     (before ++ after) T = Ok response /\
    (forall i job result s,
        (before ++ failing :: after) !! i = Some job ->
        i <> length before ->
        scoringOf generateScore cvData i job = Ok result ->
        score result = Some s -> (T <= s)%Z ->
        spread job result ∈ jobs response) /\
    jobs response ≡ₚ keptJobs generateScore cvData T 0 before ++
                     keptJobs generateScore cvData T (S (length before)) after.
Proof.
  intros Hcv Hthrow. rewrite !analyzeCvAndJobs_scoreAll, Hcv. cbn.
  eexists. split; [reflexivity |].
  assert (Hparts :
    scoreAll generateScore cvData T 0 (before ++ failing :: after) =
    scoreAll generateScore cvData T 0 before ++
    scoreAll generateScore cvData T (S (length before)) after).
  { rewrite scoreAll_app, scoreAll_cons.
    rewrite (scoreJob_scoringOf generateScore cvData T (0 + length before) failing).
    cbn [Nat.add]. rewrite Hthrow. unfold option_list. now rewrite app_nil_l. }
  split; [| split].
  - do 2 f_equal. rewrite Hparts, scoreAll_app. f_equal. f_equal.
    + apply scoreAll_ext. intros p job Hp. rewrite scoreJob_skipPosition.
      apply lookup_lt_Some in Hp.
      destruct (Nat.ltb_spec (0 + p) (length before)); [reflexivity | lia].
    + apply scoreAll_ext. intros p job _. rewrite scoreJob_skipPosition.
      cbn [Nat.add].
      destruct (Nat.ltb_spec (length before + p) (length before)); [lia | reflexivity].
  - intros i job result s Hi _ Hresult Hs Hle. cbn [jobs].
    rewrite sort_Permutation. apply scoreAll_elem_of.
    exists i, job. split; [assumption |]. cbn [Nat.add].
    rewrite scoreJob_scoringOf, Hresult, Hs.
    destruct (Z.leb_spec T s); [reflexivity | lia].
  - cbn [jobs]. rewrite sort_Permutation, Hparts. now rewrite !scoreAll_keptJobs.
Qed.

Lemma scoring_failure_drops_only_that_job_sample :
  exists response,
    analyzeCvAndJobs sampleProfile sampleScore "cv"
      (take 3 sampleJobs ++ sampleJob 4 "Platform Engineer" :: drop 4 sampleJobs) 60
      = Ok response /\
    analyzeCvAndJobs sampleProfile (skipPosition (length (take 3 sampleJobs)) sampleScore) "cv"
      (take 3 sampleJobs ++ drop 4 sampleJobs) 60 = Ok response /\
    (forall i job result s,
        (take 3 sampleJobs ++ sampleJob 4 "Platform Engineer" :: drop 4 sampleJobs) !! i
          = Some job ->
        i <> length (take 3 sampleJobs) ->
        scoringOf sampleScore sampleCv i job = Ok result ->
        score result = Some s -> (60 <= s)%Z ->
        spread job result ∈ jobs response) /\
    jobs response ≡ₚ keptJobs sampleScore sampleCv 60 0 (take 3 sampleJobs) ++
                     keptJobs sampleScore sampleCv 60 (S (length (take 3 sampleJobs)))
                              (drop 4 sampleJobs).
Proof.
  apply (scoring_failure_drops_only_that_job sampleProfile sampleScore "cv"
           (take 3 sampleJobs) (drop 4 sampleJobs) (sampleJob 4 "Platform Engineer")
           60 sampleCv (mkError "503 Service Unavailable")); reflexivity.
Defined.

(** The sample request: six jobs, two chunks; the job at position 3
    fails and the one at position 1 scores 35. The four others come back,
    highest score first, equal scores in input order. *)
Example analyzeCvAndJobs_sample :
  (fun r => map (fun j => (jobId (listing j), jobScore j)) (jobs r)) <$>
    (match analyzeCvAndJobs sampleProfile sampleScore "cv" sampleJobs 60 with
     | Ok r => Some r | Throw _ => None end)
  = Some [(VNum 3, Some 91); (VNum 6, Some 91); (VNum 1, Some 72); (VNum 5, Some 64)]%Z.
Proof. reflexivity. Qed.

(** ** The normalizer *)

Section NormalizerFacts.

Variable uuidv4 : nat -> string.
Variable today : string.

Lemma normalizeJobData_jobId rawJob n :
  if truthy (providedId rawJob)
  then jobId (normalizeJobData uuidv4 today rawJob n).1 = providedId rawJob /\
       (normalizeJobData uuidv4 today rawJob n).2 = n
  else jobId (normalizeJobData uuidv4 today rawJob n).1 = VStr (uuidv4 n) /\
       (normalizeJobData uuidv4 today rawJob n).2 = S n.
Proof.
  unfold normalizeJobData. destruct (truthy (providedId rawJob)); cbn; auto.
Qed.

Lemma normalizeAll_cons rawJob rest n :
  normalizeAll uuidv4 today (rawJob :: rest) n =
  ((normalizeJobData uuidv4 today rawJob n).1 ::
     (normalizeAll uuidv4 today rest (normalizeJobData uuidv4 today rawJob n).2).1,
   (normalizeAll uuidv4 today rest (normalizeJobData uuidv4 today rawJob n).2).2).
Proof.
  cbn [normalizeAll].
  destruct (normalizeJobData uuidv4 today rawJob n) as [job n1]. cbn.
  destruct (normalizeAll uuidv4 today rest n1). reflexivity.
Qed.

(** Where a job identifier comes from: the listing, or a call of
    [uuidv4()] made during this normalization. *)
Lemma normalizeAll_jobId_origin rawJobs : forall n id,
  id ∈ jobId <$> (normalizeAll uuidv4 today rawJobs n).1 ->
  (exists rawJob, rawJob ∈ rawJobs /\ truthy (providedId rawJob) = true /\
                  id = providedId rawJob) \/
  (exists i, (n <= i)%nat /\ id = VStr (uuidv4 i)).
Proof.
  induction rawJobs as [| rawJob rest IH]; intros n id Hin.
  - cbn in Hin. now apply elem_of_nil in Hin.
  - rewrite normalizeAll_cons in Hin. cbn [fst fmap list_fmap] in Hin.
    pose proof (normalizeJobData_jobId rawJob n) as Hhead.
    apply elem_of_cons in Hin as [-> | Hin].
    + destruct (truthy (providedId rawJob)) eqn:Hp; destruct Hhead as [Hid _].
      * left. exists rawJob. split; [apply list_elem_of_here | auto].
      * right. exists n. auto.
    + apply IH in Hin as [(raw' & Hraw' & Ht & ->) | (i & Hi & ->)].
      * left. exists raw'. split; [now apply list_elem_of_further | auto].
      * right. exists i. split; [| reflexivity].
        destruct (truthy (providedId rawJob)); destruct Hhead as [_ Hn];
          rewrite Hn in Hi; lia.
Qed.

End NormalizerFacts.

(** The jobs of a response are jobs of the request, in their order
    before the sort. *)
Lemma scoreAll_listing_sublist generateScore cvData T normalizedJobs : forall first,
  listing <$> scoreAll generateScore cvData T first normalizedJobs `sublist_of` normalizedJobs.
Proof.
  induction normalizedJobs as [| job rest IH]; intros first.
  - cbn. constructor.
  - rewrite scoreAll_cons, fmap_app.
    destruct (scoreJob generateScore cvData T first job) as [j |] eqn:Hj; cbn.
    + apply scoreJob_Some in Hj as [-> _]. apply sublist_skip, IH.
    + apply sublist_cons, IH.
Qed.

Lemma analyzeCvAndJobs_jobIds generateProfile generateScore cvText normalizedJobs T response :
  analyzeCvAndJobs generateProfile generateScore cvText normalizedJobs T = Ok response ->
  NoDup (jobId <$> normalizedJobs) ->
  NoDup (jobId <$> (listing <$> jobs response)).
Proof.
  rewrite analyzeCvAndJobs_scoreAll.
  destruct (generateProfile _) as [cvData |]; cbn; [| discriminate].
  intros [= <-] Hnodup. cbn. rewrite sort_Permutation.
  eapply sublist_NoDup; [exact Hnodup |].
  apply fmap_sublist, scoreAll_listing_sublist.
Qed.

(** C4, as amended. With an identifier generator that never repeats
    itself, the jobs normalized for one request, and so the jobs of the
    response, carry pairwise distinct [jobId]s provided the identifiers
    that the listings themselves supply are pairwise distinct and none
    of them is a generated identifier; in particular listings that
    supply no identifier receive distinct generated ones. *)
Theorem jobIds_distinct_when_provided_ids_are
    (uuidv4 : nat -> string) (today : string) (rawJobs : list RawListing) (n : nat) :
  (forall i j, uuidv4 i = uuidv4 j -> i = j) ->
  NoDup (filter (fun id => truthy id = true) (providedId <$> rawJobs)) ->
  (forall rawJob i, rawJob ∈ rawJobs -> providedId rawJob <> VStr (uuidv4 i)) ->
  NoDup (jobId <$> (normalizeAll uuidv4 today rawJobs n).1) /\
  (forall generateProfile generateScore cvText T response,
      analyzeCvAndJobs generateProfile generateScore cvText
                       (normalizeAll uuidv4 today rawJobs n).1 T = Ok response ->
      NoDup (jobId <$> (listing <$> jobs response))).
Proof.
  intros Hinj Hprovided Hfresh.
  assert (Hnormalized : NoDup (jobId <$> (normalizeAll uuidv4 today rawJobs n).1)).
  { revert n Hprovided Hfresh.
    induction rawJobs as [| rawJob rest IH]; intros n Hprovided Hfresh.
    - cbn. constructor.
    - rewrite normalizeAll_cons. cbn [fst fmap list_fmap].
      pose proof (normalizeJobData_jobId uuidv4 today rawJob n) as Hhead.
      assert (Hrest : NoDup (filter (fun id => truthy id = true) (providedId <$> rest))).
      { cbn [fmap list_fmap] in Hprovided. rewrite filter_cons in Hprovided.
        destruct (decide (truthy (providedId rawJob) = true)); [| assumption].
        now apply NoDup_cons in Hprovided as [_ ?]. }
      constructor.
      + intros Hin. apply normalizeAll_jobId_origin in Hin.
        destruct (truthy (providedId rawJob)) eqn:Hp;
          destruct Hhead as [Hid Hn]; rewrite Hid, Hn in Hin.
        * destruct Hin as [(raw' & Hraw' & Ht & Heq) | (i & _ & Heq)].
          -- cbn [fmap list_fmap] in Hprovided. rewrite filter_cons in Hprovided.
             destruct (decide (truthy (providedId rawJob) = true)); [| congruence].
             apply NoDup_cons in Hprovided as [Hnotin _]. apply Hnotin.
             apply list_elem_of_filter. split; [assumption |].
             rewrite Heq. now apply list_elem_of_fmap_2.
          -- apply (Hfresh rawJob i); [apply list_elem_of_here | assumption].
        * destruct Hin as [(raw' & Hraw' & Ht & Heq) | (i & Hi & Heq)].
          -- apply (Hfresh raw' n); [now apply list_elem_of_further | congruence].
          -- injection Heq as Heq. apply Hinj in Heq. lia.
      + apply IH; [assumption |].
        intros raw' i Hraw'. apply Hfresh. now apply list_elem_of_further. }
  split; [exact Hnormalized |].
  intros generateProfile generateScore cvText T response Hresponse.
  exact (analyzeCvAndJobs_jobIds _ _ _ _ _ _ Hresponse Hnormalized).
Qed.

Lemma jobIds_distinct_sample :
  NoDup (jobId <$> (normalizeAll countingUuid "2025-01-15" anonymousListings 0).1) /\
  (forall generateProfile generateScore cvText T response,
      analyzeCvAndJobs generateProfile generateScore cvText
                       (normalizeAll countingUuid "2025-01-15" anonymousListings 0).1 T
        = Ok response ->
      NoDup (jobId <$> (listing <$> jobs response))).
Proof.
  apply (jobIds_distinct_when_provided_ids_are countingUuid "2025-01-15" anonymousListings 0).
  - intros i j H. exact (pretty_nat_inj i j H).
  - vm_compute. repeat constructor. intros H. inversion H.
  - intros rawJob i Hin.
    repeat (apply elem_of_cons in Hin as [-> | Hin]); [| | | now apply elem_of_nil in Hin];
      vm_compute; discriminate.
Defined.

(** C4 as the specification states it fails: a provider that returns
    the same posting twice yields two jobs with the same [jobId], and
    both are in the response when both reach the threshold. *)
Lemma repeated_listing_repeats_jobId :
  let normalizedJobs := (normalizeAll countingUuid "2025-01-15" repeatedListings 0).1 in
  ~ NoDup (jobId <$> normalizedJobs) /\
  match analyzeCvAndJobs sampleProfile sampleScore "cv" normalizedJobs 30 with
  | Ok response =>
      jobId <$> (listing <$> jobs response) = [VStr "4012345678"; VStr "4012345678"] /\
      ~ NoDup (jobId <$> (listing <$> jobs response))
  | Throw _ => False
  end.
Proof.
  vm_compute. repeat split; intros H; apply NoDup_cons in H as [Hnotin _];
    apply Hnotin; apply list_elem_of_here.
Qed.

(** A listing with no field at all gets every default, and its
    [applyUrl] is its [jobUrl]. *)
Example normalizeJobData_empty :
  (normalizeJobData countingUuid "2025-01-15" ∅ 7).1 =
  {| jobId := VStr "7";
     companyName := VStr "Unknown Company";
     companyLogo := VNull;
     jobTitle := VStr "Untitled Role";
     jobUrl := VStr "";
     applyUrl := VStr "";
     description := VStr "";
     scrapedAt := VStr "2025-01-15" |}.
Proof. reflexivity. Qed.

(** When the listing has no [applyUrl], the job's [applyUrl] is its
    [jobUrl] as long as the URL is under the key [url], or under neither
    key. *)
Lemma applyUrl_falls_back_to_url uuidv4 today (rawJob : RawListing) n :
  truthy (get rawJob "applyUrl") = false ->
  truthy (get rawJob "url") = true \/ truthy (get rawJob "jobUrl") = false ->
  applyUrl (normalizeJobData uuidv4 today rawJob n).1 =
  jobUrl (normalizeJobData uuidv4 today rawJob n).1.
Proof.
  intros Happly Hurl. unfold normalizeJobData.
  destruct (truthy (providedId rawJob)); cbn; unfold Js.or; rewrite Happly;
    destruct (truthy (get rawJob "url")) eqn:Hu; cbn; try rewrite Hu; try reflexivity;
    destruct Hurl as [? | Hj]; try discriminate; now rewrite Hj.
Qed.

(** C5, where the code departs from the claim. A listing whose URL is
    under the key [jobUrl] and that has no [applyUrl] is normalized to a
    job whose [jobUrl] is that URL and whose [applyUrl] is the empty
    string: the fallback of [applyUrl] reads [rawJob.url] only. *)
Theorem applyUrl_misses_jobUrl_alias :
  let job := (normalizeJobData countingUuid "2025-01-15" aliasOnlyListing 0).1 in
  get aliasOnlyListing "applyUrl" = VUndef /\
  jobUrl job = VStr "https://www.linkedin.com/jobs/view/4012345678" /\
  applyUrl job = VStr "" /\
  applyUrl job <> jobUrl job.
Proof. vm_compute. repeat split. discriminate. Qed.

(** ** The listing source adapter *)

Section AdapterFacts.

Variables actor runId token : string.

Lemma pollLoop_events polls : forall status,
  exists made, (pollLoop actor runId token status polls).1 = rounds actor runId token (take made polls).
Proof.
  induction polls as [| observed later IH]; intros status; cbn;
    destruct (nonTerminal status).
  - now exists 0%nat.
  - now exists 0%nat.
  - destruct (IH observed) as [made Hmade].
    destruct (pollLoop actor runId token observed later) as [events final]. cbn in *.
    exists (S made). cbn. now rewrite Hmade.
  - now exists 0%nat.
Qed.


Lemma rounds_delays observed : delays (rounds actor runId token observed) = length observed.
Proof. induction observed as [| s l IH]; cbn; [reflexivity | now f_equal]. Qed.

Lemma rounds_pollsMade observed : pollsMade (rounds actor runId token observed) = length observed.
Proof. induction observed as [| s l IH]; cbn; [reflexivity | now f_equal]. Qed.

Lemma rounds_startBodies observed : startBodies (rounds actor runId token observed) = [].
Proof. induction observed as [| s l IH]; cbn; [reflexivity | assumption]. Qed.

End AdapterFacts.

Lemma delays_app e1 e2 : delays (e1 ++ e2) = (delays e1 + delays e2)%nat.
Proof. unfold delays. now rewrite List.filter_app, length_app. Qed.

Lemma pollsMade_app e1 e2 : pollsMade (e1 ++ e2) = (pollsMade e1 + pollsMade e2)%nat.
Proof. unfold pollsMade. now rewrite List.filter_app, length_app. Qed.

Lemma startBodies_app e1 e2 : startBodies (e1 ++ e2) = startBodies e1 ++ startBodies e2.
Proof. apply omap_app. Qed.

(** C8. Whatever count the caller asks for, the start request that
    [scrapeLinkedInJobs] sends to the provider (the only one, sent once a
    token is resolved) asks for [min(maxItems, 100)] items, under
    [maxItems] and under [limit]; no request asks for more than 100. *)
Theorem scrape_caps_item_count
    envToken envActor provider searchUrl requested apiToken actorSlug :
  startBodies (scrapeLinkedInJobs envToken envActor provider searchUrl requested
                                  apiToken actorSlug).1 =
    (if str_truthy (str_or apiToken envToken)
     then [ {| startUrls := [searchUrl];
               maxItems := Z.min requested 100;
               limit := Z.min requested 100 |} ]
     else []) /\
  Forall (fun body => (maxItems body <= 100)%Z /\ (limit body <= 100)%Z)
         (startBodies (scrapeLinkedInJobs envToken envActor provider searchUrl requested
                                          apiToken actorSlug).1).
Proof.
  assert (Hbodies :
    startBodies (scrapeLinkedInJobs envToken envActor provider searchUrl requested
                                    apiToken actorSlug).1 =
    if str_truthy (str_or apiToken envToken)
    then [ {| startUrls := [searchUrl];
              maxItems := Z.min requested 100;
              limit := Z.min requested 100 |} ]
    else []).
  { unfold scrapeLinkedInJobs.
    destruct (str_truthy (str_or apiToken envToken)); cbn [negb]; [| reflexivity].
    destruct (startRes provider) as [err | runId datasetId]; [reflexivity |].
    match goal with
    | |- context [pollLoop ?a ?r ?t ?s ?p] =>
        destruct (pollLoop_events a r t p s) as [made Hmade];
        destruct (pollLoop a r t s p) as [events final]
    end.
    cbn in Hmade. subst events.
    destruct final as [status |]; [destruct (negb _) |]; cbn [fst];
      change (startBodies (?e :: ?l)) with (startBodies [e] ++ startBodies l);
      rewrite ?startBodies_app, rounds_startBodies; reflexivity. }
  split; [exact Hbodies |].
  rewrite Hbodies. destruct (str_truthy _); repeat constructor; cbn; lia.
Qed.

(** A request for 500 items sends 100. *)
Example scrape_500_sends_100 :
  startBodies (scrapeLinkedInJobs (Some "apify_api_token") None succeedingProvider
                 "https://www.linkedin.com/jobs/search?keywords=go" 500 None None).1 =
  [ {| startUrls := ["https://www.linkedin.com/jobs/search?keywords=go"];
       maxItems := 100; limit := 100 |} ].
Proof. reflexivity. Qed.




(** The events of that run, in order. *)
Example scrape_RRS_events :
  (scrapeLinkedInJobs (Some "apify_api_token") None succeedingProvider
     "https://www.linkedin.com/jobs/search?keywords=go" 50 None None).1 =
  [ EStart "curious_coder~linkedin-jobs-scraper" "apify_api_token"
      {| startUrls := ["https://www.linkedin.com/jobs/search?keywords=go"];
         maxItems := 50; limit := 50 |};
    EDelay 5000; EPoll "curious_coder~linkedin-jobs-scraper" "run-1" "apify_api_token";
    EDelay 5000; EPoll "curious_coder~linkedin-jobs-scraper" "run-1" "apify_api_token";
    EDelay 5000; EPoll "curious_coder~linkedin-jobs-scraper" "run-1" "apify_api_token";
    EFetchItems "dataset-1" "apify_api_token" 100 ].
Proof. reflexivity. Qed.

(** ** The text extractor *)

(** C9. Whenever the decode chosen for the mime type throws, whichever
    decode it is and whatever it throws, [extractText] throws the one
    error whose message is the fixed text "Failed to parse CV file."; the
    error of the decoder is not part of what the caller receives. *)
Theorem decode_failure_is_reported_uniformly
    pdfParse mammoth toUtf8 (fs : FileSystem) filePath mimeType buffer e :
  fs !! filePath = Some buffer ->
  decode pdfParse mammoth toUtf8 buffer filePath mimeType = Throw e ->
  extractText pdfParse mammoth toUtf8 fs filePath mimeType =
    Throw (mkError "Failed to parse CV file.").
Proof.
  intros Hfile Hdecode. unfold extractText, readFileSync.
  rewrite Hfile. cbn [bind]. now rewrite Hdecode.
Qed.

Lemma decode_failure_is_reported_uniformly_sample :
  extractText corruptPdf Ok Ok sampleFiles (path sampleUpload) (mimetype sampleUpload) =
    Throw (mkError "Failed to parse CV file.").
Proof.
  apply (decode_failure_is_reported_uniformly corruptPdf Ok Ok sampleFiles
           (path sampleUpload) (mimetype sampleUpload)
           "%PDF-1.7 Senior Go engineer" (mkError "Invalid PDF structure"));
    reflexivity.
Defined.

(** The three decodes, by mime type. *)
Example decode_by_mime_type :
  decode (fun _ => Ok "pdf") (fun _ => Ok "word") (fun _ => Ok "text") "" "cv" "application/pdf" = Ok "pdf" /\
  decode (fun _ => Ok "pdf") (fun _ => Ok "word") (fun _ => Ok "text") "" "cv" "application/msword" = Ok "word" /\
  decode (fun _ => Ok "pdf") (fun _ => Ok "word") (fun _ => Ok "text") "" "cv"
         "application/vnd.openxmlformats-officedocument.wordprocessingml.document" = Ok "word" /\
  decode (fun _ => Ok "pdf") (fun _ => Ok "word") (fun _ => Ok "text") "" "cv" "text/plain" = Ok "text".
Proof. repeat split; reflexivity. Qed.

(** ** The endpoint *)

Lemma existsSync_lookup (fs : FileSystem) filePath :
  existsSync fs filePath = match fs !! filePath with Some _ => true | None => false end.
Proof.
  unfold existsSync. destruct (fs !! filePath) eqn:H.
  - apply bool_decide_eq_true. eauto.
  - apply bool_decide_eq_false. intros [x Hx]. discriminate.
Qed.

Lemma pipeline_Returned_upload out w f b r :
  pipeline out w f b = Returned r -> is_Some (files w !! path f).
Proof.
  unfold pipeline, extractText, readFileSync.
  destruct (files w !! path f); [eauto | discriminate].
Qed.

Lemma analyzeCvAndJobs_atLeast generateProfile generateScore cvText normalizedJobs T r :
  analyzeCvAndJobs generateProfile generateScore cvText normalizedJobs T = Ok r ->
  Forall (scoreAtLeast T) (jobs r).
Proof.
  rewrite analyzeCvAndJobs_scoreAll.
  destruct (generateProfile _) as [cvData |]; cbn; [| discriminate].
  intros [= <-]. cbn. apply sort_Forall, scoreAll_atLeast.
Qed.

(** C10. For a request that carries an upload and whose pipeline comes to
    an end, the handler answers once, 200 with the analysis when the
    pipeline returned and 502 with the message when it threw; on both
    paths the removal of the uploaded file comes before the answer, and
    the file is not on disk afterwards. *)
Theorem upload_removed_before_response out w f b :
  pipeline out w f b <> Pending ->
  let run := analyzeHandler out w {| file := Some f; body := b |} in
  run.1 !! path f = None /\
  exists status payload,
    run.2 = (if existsSync (files w) (path f) then [Unlinked (path f)] else [])
            ++ [Responded status payload] /\
    match pipeline out w f b with
    | Returned analysisResult =>
        status = 200%Z /\ payload = AnalysisPayload analysisResult /\
        existsSync (files w) (path f) = true
    | Raised e => status = 502%Z /\ payload = ErrorPayload (message e)
    | Pending => False
    end.
Proof.
  intros Hends run. subst run. unfold analyzeHandler. cbn [file body].
  destruct (pipeline out w f b) as [analysisResult | e |] eqn:Hrun; [| | congruence].
  - apply pipeline_Returned_upload in Hrun as [content Hcontent].
    unfold unlinkSync. rewrite existsSync_lookup, Hcontent. cbn [fst snd].
    split; [apply lookup_delete_eq |].
    exists 200%Z, (AnalysisPayload analysisResult). auto.
  - unfold onError, unlinkSync. rewrite existsSync_lookup.
    destruct (files w !! path f) as [content |] eqn:Hcontent; cbn [fst snd].
    + split; [apply lookup_delete_eq |].
      exists 502%Z, (ErrorPayload (message e)). auto.
    + split; [assumption |].
      exists 502%Z, (ErrorPayload (message e)). auto.
Qed.

Lemma upload_removed_before_response_sample :
  let run := analyzeHandler sampleOutside sampleWorld
               {| file := Some sampleUpload; body := sampleBody |} in
  run.1 !! path sampleUpload = None /\
  exists status payload,
    run.2 = (if existsSync (files sampleWorld) (path sampleUpload)
             then [Unlinked (path sampleUpload)] else [])
            ++ [Responded status payload] /\
    match pipeline sampleOutside sampleWorld sampleUpload sampleBody with
    | Returned analysisResult =>
        status = 200%Z /\ payload = AnalysisPayload analysisResult /\
        existsSync (files sampleWorld) (path sampleUpload) = true
    | Raised e => status = 502%Z /\ payload = ErrorPayload (message e)
    | Pending => False
    end.
Proof.
  apply (upload_removed_before_response sampleOutside sampleWorld sampleUpload sampleBody).
  vm_compute. discriminate.
Defined.

(** The sample request end to end: the upload is unlinked, then the two
    listings scored 70 or more are returned, and only the other file is
    left in the temporary directory. *)
Example analyzeHandler_sample :
  let run := analyzeHandler sampleOutside sampleWorld
               {| file := Some sampleUpload; body := sampleBody |} in
  dom run.1 = {[ "/srv/job-scout/temp/cover-77.pdf" ]} /\
  match run.2 with
  | [Unlinked filePath; Responded status (AnalysisPayload r)] =>
      filePath = path sampleUpload /\ status = 200%Z /\
      map (fun j => (jobId (listing j), jobScore j)) (jobs r) =
        [(VStr "1", Some 91%Z); (VStr "0", Some 72%Z)]
  | _ => False
  end.
Proof. vm_compute. repeat split. Qed.

(** The failure path: the decoder rejects the upload; the file is
    unlinked, then the fixed message is sent with status 502. *)
Example analyzeHandler_corrupt_upload :
  analyzeHandler corruptOutside sampleWorld
    {| file := Some sampleUpload; body := sampleBody |} =
  (delete (path sampleUpload) sampleFiles,
   [Unlinked (path sampleUpload);
    Responded 502 (ErrorPayload "Failed to parse CV file.")]).
Proof. reflexivity. Qed.

(** Without an upload the handler answers 400 and touches no file. *)
Example analyzeHandler_no_upload :
  analyzeHandler sampleOutside sampleWorld {| file := None; body := sampleBody |} =
  (sampleFiles, [Responded 400 (ErrorPayload "No CV file uploaded.")]).
Proof. reflexivity. Qed.

Lemma parseInt_toString_upto_100 n :
  (0 <= n <= 100)%Z -> Number.parseInt (Some (Number.toString n)) = Some n.
Proof.
  intros Hn.
  assert (Hk : forall k : nat, (k <= 100)%nat ->
            Number.parseInt (Some (Number.toString (Z.of_nat k))) = Some (Z.of_nat k)).
  { intros k Hk. do 101 (destruct k as [| k]; [reflexivity |]). lia. }
  rewrite <- (Z2Nat.id n) by lia. apply Hk. lia.
Qed.

Lemma pipeline_atLeast out w f b r :
  pipeline out w f b = Returned r -> Forall (scoreAtLeast (requestedThreshold b)) (jobs r).
Proof.
  unfold pipeline.
  destruct (extractText _ _ _ _ _ _) as [cvText |]; [| discriminate].
  destruct (scrapeLinkedInJobs _ _ _ _ _ _ _).2 as [rawJobs | |]; try discriminate.
  destruct (analyzeCvAndJobs _ _ _ _ _) as [analysisResult |] eqn:Hanalysis; [| discriminate].
  intros [= <-]. exact (analyzeCvAndJobs_atLeast _ _ _ _ _ _ Hanalysis).
Qed.

Lemma scoreAtLeast_mono t t' j : (t' <= t)%Z -> scoreAtLeast t j -> scoreAtLeast t' j.
Proof. intros Hle (s & Hs & Hts). exists s. split; [assumption | lia]. Qed.

(** At the endpoint: whatever threshold from 0 to 100 the form sends,
    the jobs of the response score at least that much (a threshold of 0
    is served as 60, which is more than 0). *)
Lemma response_meets_requested_threshold out w f b n r :
  (0 <= n <= 100)%Z ->
  scoreThreshold b = Some (Number.toString n) ->
  pipeline out w f b = Returned r ->
  Forall (scoreAtLeast n) (jobs r).
Proof.
  intros Hn Hfield Hr. apply pipeline_atLeast in Hr.
  eapply Forall_impl; [exact Hr |]. intros j. apply scoreAtLeast_mono.
  unfold requestedThreshold. rewrite Hfield, parseInt_toString_upto_100 by lia.
  cbn. destruct (Z.eqb_spec n 0); lia.
Qed.





(** * Further properties of the code *)

(** ** [chunkArray] *)

(** X1. With a positive size, [chunkArray] cuts the array into
    consecutive chunks: put end to end they give the array back, every
    chunk but the last has exactly [size] elements, the last has at most
    [size], and it is empty only when the array is. *)
Theorem chunkArray_partitions {A : Type} (arr : list A) (size : nat) :
  size <> 0%nat ->
  exists full last,
    chunkArray arr size = Ok (full ++ [last]) /\
    concat (full ++ [last]) = arr /\
    Forall (fun chunk => length chunk = size) full /\
    (length last <= size)%nat /\
    (arr <> [] -> last <> []).
Proof.
  funelim (chunkArray arr size); intros Hsize.
  - exists [], arr. cbn. rewrite app_nil_r. repeat split; auto. lia.
  - congruence.
  - match goal with
    | IH : S _ <> 0%nat -> _ |- _ =>
        destruct (IH Hsize) as (full & last & Hrest & Hcat & Hfull & Hlast & Hne)
    end.
    exists (take (S k) arr :: full), last. rewrite Hrest. cbn.
    split; [reflexivity |].
    split; [rewrite Hcat; apply take_drop |].
    split; [constructor; [rewrite length_take; lia | assumption] |].
    split; [assumption |].
    intros _. apply Hne. intros Hdrop.
    apply (f_equal length) in Hdrop. rewrite length_drop in Hdrop. cbn in Hdrop. lia.
Qed.

Lemma chunkArray_partitions_sample :
  exists full last,
    chunkArray [1; 2; 3; 4; 5; 6; 7]%nat 3 = Ok (full ++ [last]) /\
    concat (full ++ [last]) = [1; 2; 3; 4; 5; 6; 7]%nat /\
    Forall (fun chunk => length chunk = 3%nat) full /\
    (length last <= 3)%nat /\
    ([1; 2; 3; 4; 5; 6; 7]%nat <> [] -> last <> []).
Proof. apply (chunkArray_partitions [1; 2; 3; 4; 5; 6; 7]%nat 3). lia. Defined.

Lemma chunkArray_Ok_concat {A : Type} (arr : list A) (size : nat) chunks :
  chunkArray arr size = Ok chunks -> concat chunks = arr.
Proof.
  revert chunks. funelim (chunkArray arr size); intros chunks Hc.
  - injection Hc as <-. cbn. apply app_nil_r.
  - discriminate.
  - match goal with
    | IH : forall c, chunkArray ?a ?s = Ok c -> _ |- _ =>
        destruct (chunkArray a s) as [rest |] eqn:Hrest; cbn in Hc; [| discriminate];
        specialize (IH rest eq_refl);
        injection Hc as <-; cbn; rewrite IH; apply take_drop
    end.
Qed.

(** X3. The size of the chunks bounds the requests in flight and
    nothing else: the scoring loop run on the chunks of one size
    collects the same scored jobs, in the same order, as on the chunks
    of any other size. *)
Theorem scoring_independent_of_chunk_size
    generateScore cvData T (normalizedJobs : list Job) size1 size2 chunks1 chunks2 :
  chunkArray normalizedJobs size1 = Ok chunks1 ->
  chunkArray normalizedJobs size2 = Ok chunks2 ->
  scoreChunks generateScore cvData T 0 chunks1 [] =
  scoreChunks generateScore cvData T 0 chunks2 [].
Proof.
  intros H1 H2. rewrite !scoreChunks_scoreAll.
  now rewrite (chunkArray_Ok_concat _ _ _ H1), (chunkArray_Ok_concat _ _ _ H2).
Qed.

Lemma scoring_independent_of_chunk_size_sample :
  scoreChunks sampleScore sampleCv 60 0 [take 5 sampleJobs; drop 5 sampleJobs] [] =
  scoreChunks sampleScore sampleCv 60 0
    [take 2 sampleJobs; take 2 (drop 2 sampleJobs); drop 4 sampleJobs] [].
Proof.
  apply (scoring_independent_of_chunk_size sampleScore sampleCv 60 sampleJobs 5 2);
    reflexivity.
Defined.

(** ** Which jobs a response holds *)

(** X4. A job is never lost: when the completion service answers for
    the job at some position with a score of at least the threshold,
    that job, with that answer spread over it, is in the response. *)
Theorem qualifying_job_is_returned
    generateProfile generateScore cvText (normalizedJobs : list Job) T cvData
    i job result s :
  generateProfile (prefix_of (N.to_nat 10000) cvText) = Ok cvData ->
  normalizedJobs !! i = Some job ->
  scoringOf generateScore cvData i job = Ok result ->
  score result = Some s ->
  (T <= s)%Z ->
  exists response,
    analyzeCvAndJobs generateProfile generateScore cvText normalizedJobs T = Ok response /\
    spread job result ∈ jobs response.
Proof.
  intros Hcv Hi Hresult Hs Hle. rewrite analyzeCvAndJobs_scoreAll, Hcv. cbn.
  eexists. split; [reflexivity |]. cbn.
  rewrite sort_Permutation. apply scoreAll_elem_of.
  exists i, job. split; [assumption |]. cbn [Nat.add].
  rewrite scoreJob_scoringOf, Hresult, Hs.
  destruct (Z.leb_spec T s); [reflexivity | lia].
Qed.

Lemma qualifying_job_is_returned_sample :
  exists response,
    analyzeCvAndJobs sampleProfile sampleScore "cv" sampleJobs 60 = Ok response /\
    spread (sampleJob 5 "Data Engineer") {| score := Some 64%Z; verdict := None |}
      ∈ jobs response.
Proof.
  apply (qualifying_job_is_returned sampleProfile sampleScore "cv" sampleJobs 60 sampleCv
           4 (sampleJob 5 "Data Engineer") {| score := Some 64%Z; verdict := None |} 64);
    (reflexivity || lia).
Defined.

(** X5. Nothing is made up: every job of a response is one of the jobs
    of the request, its description is a string, and the score and
    verdict it carries are the answer the completion service gave for
    that very job at its position, not the answer to another job of the
    batch. *)
Theorem returned_job_carries_its_own_answer
    generateProfile generateScore cvText (normalizedJobs : list Job) T response :
  analyzeCvAndJobs generateProfile generateScore cvText normalizedJobs T = Ok response ->
  Forall (fun j =>
            exists i text,
              normalizedJobs !! i = Some (listing j) /\
              description (listing j) = VStr text /\
              scoringOf generateScore (cv response) i (listing j) = Ok (scoring j))
         (jobs response).
Proof.
  rewrite analyzeCvAndJobs_scoreAll.
  destruct (generateProfile _) as [cvData |]; cbn; [| discriminate].
  intros [= <-]. cbn. apply Forall_forall. intros j Hj.
  rewrite sort_Permutation in Hj.
  apply scoreAll_elem_of in Hj as (i & job & Hi & Hscore). cbn [Nat.add] in Hscore.
  apply scoreJob_Some in Hscore as (Hlisting & Hanswer & _). subst job.
  assert (Htext : exists text, description (listing j) = VStr text).
  { unfold scoringOf, createScoringPrompt in Hanswer.
    destruct (description (listing j)); try discriminate. eauto. }
  destruct Htext as [text Htext]. exists i, text. auto.
Qed.

Lemma returned_job_carries_its_own_answer_sample :
  Forall (fun j =>
            exists i text,
              sampleJobs !! i = Some (listing j) /\
              description (listing j) = VStr text /\
              scoringOf sampleScore sampleCv i (listing j) = Ok (scoring j))
         (sort byScoreDesc (scoreAll sampleScore sampleCv 60 0 sampleJobs)).
Proof.
  apply (returned_job_carries_its_own_answer sampleProfile sampleScore "cv" sampleJobs 60
           {| cv := sampleCv;
              jobs := sort byScoreDesc (scoreAll sampleScore sampleCv 60 0 sampleJobs) |}).
  reflexivity.
Defined.

(** ** Ties and thresholds *)

Lemma after_byScoreDesc_scoreGe a b :
  is_Some (jobScore a) -> is_Some (jobScore b) ->
  after byScoreDesc a b = false -> scoreGe a b.
Proof.
  intros [sa Ha] [sb Hb]. rewrite (after_byScoreDesc a b sa sb Ha Hb).
  intros Hlt. exists sa, sb. repeat split; try assumption.
  destruct (Z.ltb_spec sa sb); [discriminate | lia].
Qed.

Lemma scoreGe_not_after a b : scoreGe a b -> after byScoreDesc a b = false.
Proof.
  intros (sa & sb & Ha & Hb & Hle). rewrite (after_byScoreDesc a b sa sb Ha Hb).
  destruct (Z.ltb_spec sa sb); [lia | reflexivity].
Qed.

Section FilterSort.

Context (P : ScoredJob -> Prop) `{!forall j, Decision (P j)}.

Lemma filter_insert_sorted_out a l :
  ~ P a -> filter P (insert_sorted byScoreDesc a l) = filter P l.
Proof.
  intros Ha. induction l as [| b rest IH]; cbn [insert_sorted].
  - rewrite filter_cons. now destruct (decide (P a)).
  - destruct (after byScoreDesc a b).
    + rewrite !filter_cons, IH. reflexivity.
    + rewrite (filter_cons P a). now destruct (decide (P a)).
Qed.

(** Inserting into a sorted list commutes with keeping the jobs that
    satisfy [P]. *)
Lemma filter_insert_sorted_in a l :
  P a -> is_Some (jobScore a) ->
  Forall (fun j => is_Some (jobScore j)) l ->
  StronglySorted scoreGe l ->
  filter P (insert_sorted byScoreDesc a l) = insert_sorted byScoreDesc a (filter P l).
Proof.
  intros Ha Hsa Hl Hsorted.
  induction Hsorted as [| b rest Hrest IH Hb]; cbn [insert_sorted].
  - rewrite filter_cons, filter_nil. now destruct (decide (P a)).
  - apply Forall_cons in Hl as [Hsb Hl].
    destruct (after byScoreDesc a b) eqn:Hab.
    + rewrite !filter_cons, (IH Hl).
      destruct (decide (P b)); cbn [insert_sorted]; [now rewrite Hab | reflexivity].
    + rewrite (filter_cons P a). destruct (decide (P a)); [| contradiction].
      rewrite (filter_cons P b).
      destruct (decide (P b)); cbn [insert_sorted]; [now rewrite Hab |].
      destruct (filter P rest) as [| c kept] eqn:Hkept; cbn [insert_sorted]; [reflexivity |].
      assert (Hc : c ∈ rest).
      { apply (list_elem_of_filter P rest c). rewrite Hkept. apply list_elem_of_here. }
      rewrite Forall_forall in Hb.
      assert (Hac : scoreGe a c).
      { eapply scoreGe_trans; [| exact (Hb c Hc)].
        now apply after_byScoreDesc_scoreGe. }
      now rewrite (scoreGe_not_after a c Hac).
Qed.

Lemma filter_sort_byScoreDesc l :
  Forall (fun j => is_Some (jobScore j)) l ->
  filter P (sort byScoreDesc l) = sort byScoreDesc (filter P l).
Proof.
  induction 1 as [| a rest Ha Hrest IH]; [reflexivity |].
  change (sort byScoreDesc (a :: rest))
    with (insert_sorted byScoreDesc a (sort byScoreDesc rest)).
  rewrite (filter_cons P a). destruct (decide (P a)) as [HPa | HPa].
  - change (sort byScoreDesc (a :: filter P rest))
      with (insert_sorted byScoreDesc a (sort byScoreDesc (filter P rest))).
    rewrite <- IH. apply filter_insert_sorted_in; try assumption.
    + now apply sort_Forall.
    + now apply sort_byScoreDesc_sorted.
  - rewrite <- IH. now apply filter_insert_sorted_out.
Qed.

End FilterSort.

(** The sort is stable: among the jobs of one score the order is kept. *)
Lemma sort_byScoreDesc_stable s l :
  Forall (fun j => is_Some (jobScore j)) l ->
  filter (fun j => jobScore j = Some s) (sort byScoreDesc l) =
  filter (fun j => jobScore j = Some s) l.
Proof.
  intros Hl. rewrite filter_sort_byScoreDesc by assumption.
  assert (Hfiltered : Forall (fun j => jobScore j = Some s)
                        (filter (fun j => jobScore j = Some s) l)).
  { apply Forall_forall. intros j Hj. now apply list_elem_of_filter in Hj as [? _]. }
  induction Hfiltered as [| a rest Ha Hrest IH]; [reflexivity |].
  change (sort byScoreDesc (a :: rest))
    with (insert_sorted byScoreDesc a (sort byScoreDesc rest)).
  rewrite IH. destruct rest as [| b rest']; cbn [insert_sorted]; [reflexivity |].
  apply Forall_cons in Hrest as [Hb _].
  rewrite (after_byScoreDesc a b s s Ha Hb), Z.ltb_irrefl. reflexivity.
Qed.

Lemma analyzeCvAndJobs_jobs generateProfile generateScore cvText normalizedJobs T response :
  analyzeCvAndJobs generateProfile generateScore cvText normalizedJobs T = Ok response ->
  jobs response =
  sort byScoreDesc (scoreAll generateScore (cv response) T 0 normalizedJobs).
Proof.
  rewrite analyzeCvAndJobs_scoreAll.
  destruct (generateProfile _) as [cvData |]; cbn; [| discriminate].
  now intros [= <-].
Qed.

Lemma scoreAll_scored generateScore cvData T first normalizedJobs :
  Forall (fun j => is_Some (jobScore j))
         (scoreAll generateScore cvData T first normalizedJobs).
Proof.
  eapply Forall_impl; [apply scoreAll_atLeast |]. intros j. apply scoreAtLeast_scored.
Qed.

(** X6. Ties keep the order of the request: in a response, the jobs
    that share a score stand in the order in which the request listed
    them. *)
Theorem equal_scores_keep_request_order
    generateProfile generateScore cvText (normalizedJobs : list Job) T response s :
  analyzeCvAndJobs generateProfile generateScore cvText normalizedJobs T = Ok response ->
  listing <$> filter (fun j => jobScore j = Some s) (jobs response)
    `sublist_of` normalizedJobs.
Proof.
  intros Hresponse. rewrite (analyzeCvAndJobs_jobs _ _ _ _ _ _ Hresponse).
  rewrite sort_byScoreDesc_stable by apply scoreAll_scored.
  etransitivity; [| apply scoreAll_listing_sublist].
  apply fmap_sublist, sublist_filter.
Qed.

Lemma equal_scores_keep_request_order_sample :
  listing <$> filter (fun j => jobScore j = Some 91%Z)
                (sort byScoreDesc (scoreAll sampleScore sampleCv 60 0 sampleJobs))
    `sublist_of` sampleJobs.
Proof.
  apply (equal_scores_keep_request_order sampleProfile sampleScore "cv" sampleJobs 60
           {| cv := sampleCv;
              jobs := sort byScoreDesc (scoreAll sampleScore sampleCv 60 0 sampleJobs) |}).
  reflexivity.
Defined.

Lemma scoreJob_raise generateScore cvData T T' i job :
  (T <= T')%Z ->
  scoreJob generateScore cvData T' i job =
  match scoreJob generateScore cvData T i job with
  | Some j => if scoresAtLeast T' j then Some j else None
  | None => None
  end.
Proof.
  intros Hle. rewrite !scoreJob_scoringOf.
  destruct (scoringOf generateScore cvData i job) as [result |]; [| reflexivity].
  destruct (score result) as [s |] eqn:Hs; [| reflexivity].
  destruct (Z.leb_spec T s), (Z.leb_spec T' s); try lia; try reflexivity.
  - unfold scoresAtLeast, jobScore. cbn. rewrite Hs.
    destruct (Z.leb_spec T' s); [reflexivity | lia].
  - unfold scoresAtLeast, jobScore. cbn. rewrite Hs.
    destruct (Z.leb_spec T' s); [lia | reflexivity].
Qed.

Lemma scoreAll_raise generateScore cvData T T' normalizedJobs : forall first,
  (T <= T')%Z ->
  scoreAll generateScore cvData T' first normalizedJobs =
  filter (fun j => scoresAtLeast T' j = true)
         (scoreAll generateScore cvData T first normalizedJobs).
Proof.
  induction normalizedJobs as [| job rest IH]; intros first Hle; [reflexivity |].
  rewrite !scoreAll_cons, filter_app, <- (IH (S first) Hle). f_equal.
  rewrite (scoreJob_raise generateScore cvData T T' first job Hle).
  destruct (scoreJob generateScore cvData T first job) as [j |]; [| reflexivity].
  change (option_list (Some j)) with [j]. rewrite filter_cons, filter_nil.
  destruct (scoresAtLeast T' j); destruct (decide _); cbn; congruence.
Qed.

(** X7. Raising the threshold only removes jobs: for the same CV, jobs
    and answers, the response to a higher threshold is the response to
    the lower one with the jobs under the higher threshold taken out,
    the others in the same order. *)
Theorem raising_threshold_filters_response
    generateProfile generateScore cvText (normalizedJobs : list Job) T T' cvData :
  generateProfile (prefix_of (N.to_nat 10000) cvText) = Ok cvData ->
  (T <= T')%Z ->
  exists lower higher,
    analyzeCvAndJobs generateProfile generateScore cvText normalizedJobs T = Ok lower /\
    analyzeCvAndJobs generateProfile generateScore cvText normalizedJobs T' = Ok higher /\
    cv higher = cv lower /\
    jobs higher = filter (fun j => scoresAtLeast T' j = true) (jobs lower).
Proof.
  intros Hcv Hle. rewrite !analyzeCvAndJobs_scoreAll, Hcv. cbn.
  eexists. eexists. split; [reflexivity |]. split; [reflexivity |].
  split; [reflexivity |]. cbn.
  rewrite filter_sort_byScoreDesc by apply scoreAll_scored.
  now rewrite <- scoreAll_raise.
Qed.

Lemma raising_threshold_filters_response_sample :
  exists lower higher,
    analyzeCvAndJobs sampleProfile sampleScore "cv" sampleJobs 60 = Ok lower /\
    analyzeCvAndJobs sampleProfile sampleScore "cv" sampleJobs 80 = Ok higher /\
    cv higher = cv lower /\
    jobs higher = filter (fun j => scoresAtLeast 80 j = true) (jobs lower).
Proof.
  apply (raising_threshold_filters_response sampleProfile sampleScore "cv" sampleJobs
           60 80 sampleCv); [reflexivity | lia].
Defined.

(** ** Truncated inputs *)

Lemma substring_0_length n s :
  String.length (String.substring 0 n s) = Nat.min n (String.length s).
Proof.
  revert s. induction n as [| n IH]; intros [| c s]; cbn; try reflexivity.
  now rewrite IH.
Qed.

Lemma substring_0_prefix n s : String.prefix (String.substring 0 n s) s = true.
Proof.
  revert s. induction n as [| n IH]; intros [| c s]; cbn; try reflexivity.
  destruct (Ascii.ascii_dec c c); [apply IH | congruence].
Qed.

Lemma substring_0_all n s :
  (String.length s <= n)%nat -> String.substring 0 n s = s.
Proof.
  revert s. induction n as [| n IH]; intros [| c s] Hlen; cbn in *;
    try reflexivity; try lia.
  f_equal. apply IH. lia.
Qed.

Lemma substring_0_append n s extra :
  (n <= String.length s)%nat ->
  String.substring 0 n (s +:+ extra) = String.substring 0 n s.
Proof.
  revert s. induction n as [| n IH]; intros [| c s] Hlen; simpl in *;
    try reflexivity; try lia.
  - now destruct extra.
  - f_equal. apply IH. lia.
Qed.

(** X8. Only the first 10,000 characters of the CV count: whatever
    follows them in the extracted text changes neither the profile nor
    the scored jobs nor an error of the analysis. *)
Theorem cv_text_beyond_prefix_is_ignored
    generateProfile generateScore cvText extra (normalizedJobs : list Job) T :
  (N.to_nat 10000 <= String.length cvText)%nat ->
  analyzeCvAndJobs generateProfile generateScore (cvText +:+ extra) normalizedJobs T =
  analyzeCvAndJobs generateProfile generateScore cvText normalizedJobs T.
Proof.
  intros Hlen. unfold analyzeCvAndJobs, prefix_of.
  now rewrite substring_0_append.
Qed.

Lemma cv_text_beyond_prefix_is_ignored_sample :
  analyzeCvAndJobs sampleProfile sampleScore (longCvText +:+ "References on request.")
                   sampleJobs 60 =
  analyzeCvAndJobs sampleProfile sampleScore longCvText sampleJobs 60.
Proof.
  apply (cv_text_beyond_prefix_is_ignored sampleProfile sampleScore longCvText
           "References on request." sampleJobs 60).
  apply Nat.leb_le. vm_compute. reflexivity.
Defined.

(** X9. The scoring prompt of a job whose description is a string
    carries the candidate's skills and summary, the title of the job,
    and a prefix of the job's description, as long as the description
    up to 3,000 characters. A job whose description is not a string
    gets no prompt and is scored by no request: it is dropped at every
    threshold. *)
Theorem scoring_prompt_is_bounded generateScore cvData (job : Job) :
  match createScoringPrompt cvData job with
  | Ok prompt =>
      exists text,
        description job = VStr text /\
        String.length (promptDescription prompt) = Nat.min 3000 (String.length text) /\
        String.prefix (promptDescription prompt) text = true /\
        promptTitle prompt = jobTitle job /\
        candidateSkills prompt = skills cvData /\
        candidateSummary prompt = profileSummary cvData
  | Throw _ =>
      (forall text, description job <> VStr text) /\
      forall T i, scoreJob generateScore cvData T i job = None
  end.
Proof.
  unfold scoreJob, createScoringPrompt.
  destruct (description job) as [| | b | z | text | ref]; cbn;
    try (split; [intros text; discriminate | reflexivity]).
  exists text. unfold prefix_of.
  rewrite substring_0_length, substring_0_prefix. repeat split; reflexivity.
Qed.

(** ** More on the listing source adapter *)

Lemma rounds_credentials actor runId token observed :
  Forall (fun e => (forall t, eventToken e = Some t -> t = token) /\
                   (forall a, eventActor e = Some a -> a = actor))
         (rounds actor runId token observed).
Proof.
  induction observed as [| s l IH]; cbn; [constructor |].
  constructor; [split; intros ? [=] |].
  constructor; [split; intros ? [=]; congruence | exact IH].
Qed.

Lemma rounds_fetches actor runId token observed :
  fetches (rounds actor runId token observed) = [].
Proof. induction observed as [| s l IH]; cbn; [reflexivity | assumption]. Qed.

Lemma pollLoop_nonTerminal actor runId token polls : forall status,
  nonTerminal status = true ->
  Forall (fun s => nonTerminal s = true) polls ->
  pollLoop actor runId token status polls = (rounds actor runId token polls, None).
Proof.
  induction polls as [| observed later IH]; intros status Hstatus Hpolls; cbn.
  - now rewrite Hstatus.
  - rewrite Hstatus. apply Forall_cons in Hpolls as [Hobserved Hlater].
    now rewrite (IH observed Hobserved Hlater).
Qed.

Lemma pollLoop_stops actor runId token waiting : forall status final later,
  nonTerminal status = true ->
  Forall (fun s => nonTerminal s = true) waiting ->
  nonTerminal final = false ->
  pollLoop actor runId token status (waiting ++ final :: later) =
  (rounds actor runId token (waiting ++ [final]), Some final).
Proof.
  induction waiting as [| observed rest IH];
    intros status final later Hstatus Hwaiting Hfinal; cbn.
  - rewrite Hstatus. destruct later; cbn; now rewrite Hfinal.
  - rewrite Hstatus. apply Forall_cons in Hwaiting as [Hobserved Hrest].
    now rewrite (IH observed final later Hobserved Hrest Hfinal).
Qed.

(** X10. One set of credentials per run: every request of a scrape, the
    start, each poll and the dataset read, carries the same token, which
    is the caller's when that is a non-empty string and the one of the
    environment otherwise; the start and the polls address the same
    actor, the caller's if non-empty, else the environment's if
    non-empty, else the built-in one. *)
Theorem scrape_uses_resolved_credentials
    envToken envActor provider searchUrl requested apiToken actorSlug :
  Forall (fun e =>
            (forall t, eventToken e = Some t -> Some t = str_or apiToken envToken) /\
            (forall a, eventActor e = Some a ->
               Some a = str_or (str_or actorSlug envActor)
                               (Some "curious_coder~linkedin-jobs-scraper")))
         (scrapeLinkedInJobs envToken envActor provider searchUrl requested
                             apiToken actorSlug).1.
Proof.
  unfold scrapeLinkedInJobs.
  destruct (str_or apiToken envToken) as [token |] eqn:Htoken; cbn [str_truthy];
    [| constructor].
  destruct (negb (negb (String.eqb token ""))); [constructor |].
  assert (Hactor : Some (default "curious_coder~linkedin-jobs-scraper"
                           (str_or (str_or actorSlug envActor)
                                   (Some "curious_coder~linkedin-jobs-scraper"))) =
                   str_or (str_or actorSlug envActor)
                          (Some "curious_coder~linkedin-jobs-scraper")).
  { unfold str_or at 1 3. destruct (str_truthy (str_or actorSlug envActor)) eqn:Ha;
      [| reflexivity].
    destruct (str_or actorSlug envActor); [reflexivity | discriminate]. }
  cbv zeta. change (default "" (Some token)) with token.
  set (actor := default _ _) in *.
  assert (Hstart : forall body,
            (forall t, eventToken (EStart actor token body) = Some t -> Some t = Some token) /\
            (forall a, eventActor (EStart actor token body) = Some a ->
               Some a = str_or (str_or actorSlug envActor)
                               (Some "curious_coder~linkedin-jobs-scraper"))).
  { intros body. split; intros ? [= <-]; [reflexivity | exact Hactor]. }
  assert (Hrounds : forall runId observed,
            Forall (fun e =>
              (forall t, eventToken e = Some t -> Some t = Some token) /\
              (forall a, eventActor e = Some a ->
                 Some a = str_or (str_or actorSlug envActor)
                                 (Some "curious_coder~linkedin-jobs-scraper")))
              (rounds actor runId token observed)).
  { intros runId observed. eapply Forall_impl; [apply rounds_credentials |].
    intros e [Ht Ha]. split.
    - intros t H. now rewrite (Ht t H).
    - intros a H. now rewrite (Ha a H). }
  destruct (startRes provider) as [err | runId datasetId].
  - cbn. constructor; [apply Hstart | constructor].
  - destruct (pollLoop_events actor runId token (pollStatuses provider) "RUNNING")
      as [made Hmade].
    destruct (pollLoop actor runId token "RUNNING" (pollStatuses provider))
      as [events final]. cbn in Hmade. subst events.
    destruct final as [status |];
      [destruct (negb (String.eqb status "SUCCEEDED")) |]; cbn [fst];
      constructor; try apply Hstart; try apply Hrounds.
    apply Forall_app. split; [apply Hrounds |].
    constructor; [| constructor]. split; intros ? [=]. now subst.
Qed.

(** X11. The adapter never gives up on a run: as long as every status
    it is shown is RUNNING or READY, it has returned nothing and thrown
    nothing, and it has made one delay and one poll per status shown,
    however many there are. *)
Theorem scrape_polls_without_bound
    envToken envActor searchUrl requested apiToken actorSlug
    runId datasetId (observed : list string) items :
  str_truthy (str_or apiToken envToken) = true ->
  Forall (fun s => nonTerminal s = true) observed ->
  let run := scrapeLinkedInJobs envToken envActor
               {| startRes := StartAccepted runId datasetId;
                  pollStatuses := observed;
                  datasetItems := items |}
               searchUrl requested apiToken actorSlug in
  run.2 = Pending /\
  delays run.1 = length observed /\
  pollsMade run.1 = length observed /\
  fetches run.1 = [].
Proof.
  intros Htoken Hobserved run. subst run. unfold scrapeLinkedInJobs.
  rewrite Htoken. cbn [negb startRes pollStatuses datasetItems].
  rewrite pollLoop_nonTerminal by (reflexivity || assumption).
  cbn [fst snd].
  change (?e :: rounds ?a ?b ?c ?l) with ([e] ++ rounds a b c l).
  rewrite delays_app, pollsMade_app, rounds_delays, rounds_pollsMade.
  repeat split. cbn. apply rounds_fetches.
Qed.

Lemma scrape_polls_without_bound_sample :
  let run := scrapeLinkedInJobs (Some "apify_api_token") None stuckProvider
               "https://www.linkedin.com/jobs/search?keywords=go" 50 None None in
  run.2 = Pending /\
  delays run.1 = 4%nat /\
  pollsMade run.1 = 4%nat /\
  fetches run.1 = [].
Proof.
  apply (scrape_polls_without_bound (Some "apify_api_token") None
           "https://www.linkedin.com/jobs/search?keywords=go" 50 None None
           "run-3" "dataset-3" ["READY"; "RUNNING"; "RUNNING"; "RUNNING"] anonymousListings);
    [reflexivity | repeat constructor].
Defined.

(** X12. The adapter stops at the first status that is neither RUNNING
    nor READY: what the provider would have answered to later polls
    plays no part, in the events or in the result. *)
Theorem scrape_stops_at_first_terminal_status
    envToken envActor searchUrl requested apiToken actorSlug
    start (waiting : list string) (final : string) (later : list string) items :
  Forall (fun s => nonTerminal s = true) waiting ->
  nonTerminal final = false ->
  scrapeLinkedInJobs envToken envActor
    {| startRes := start; pollStatuses := waiting ++ final :: later;
       datasetItems := items |}
    searchUrl requested apiToken actorSlug =
  scrapeLinkedInJobs envToken envActor
    {| startRes := start; pollStatuses := waiting ++ [final];
       datasetItems := items |}
    searchUrl requested apiToken actorSlug.
Proof.
  intros Hwaiting Hfinal. unfold scrapeLinkedInJobs.
  destruct (negb (str_truthy (str_or apiToken envToken))); [reflexivity |].
  cbn [startRes pollStatuses datasetItems].
  destruct start as [err | runId datasetId]; [reflexivity |].
  now rewrite !pollLoop_stops by (reflexivity || assumption).
Qed.

Lemma scrape_stops_at_first_terminal_status_sample :
  scrapeLinkedInJobs (Some "apify_api_token") None
    {| startRes := StartAccepted "run-1" "dataset-1";
       pollStatuses := ["RUNNING"; "READY"] ++ "ABORTED" :: ["RUNNING"; "SUCCEEDED"];
       datasetItems := anonymousListings |}
    "https://www.linkedin.com/jobs/search?keywords=go" 50 None None =
  scrapeLinkedInJobs (Some "apify_api_token") None
    {| startRes := StartAccepted "run-1" "dataset-1";
       pollStatuses := ["RUNNING"; "READY"] ++ ["ABORTED"];
       datasetItems := anonymousListings |}
    "https://www.linkedin.com/jobs/search?keywords=go" 50 None None.
Proof.
  apply (scrape_stops_at_first_terminal_status (Some "apify_api_token") None
           "https://www.linkedin.com/jobs/search?keywords=go" 50 None None
           (StartAccepted "run-1" "dataset-1") ["RUNNING"; "READY"] "ABORTED"
           ["RUNNING"; "SUCCEEDED"] anonymousListings);
    [repeat constructor | reflexivity].
Defined.

(** X13. The dataset is read exactly when the run has succeeded: a
    scrape that returns has read the dataset of its run once, as its
    last request, asking for 100 items, and returns what it read; a
    scrape that throws or is still polling has read no dataset. *)
Theorem scrape_reads_dataset_iff_succeeded
    envToken envActor provider searchUrl requested apiToken actorSlug :
  let run := scrapeLinkedInJobs envToken envActor provider searchUrl requested
                                apiToken actorSlug in
  match run.2 with
  | Returned items =>
      items = datasetItems provider /\
      exists runId datasetId before,
        startRes provider = StartAccepted runId datasetId /\
        run.1 = before ++ [EFetchItems datasetId (default "" (str_or apiToken envToken)) 100] /\
        fetches before = []
  | Raised _ | Pending => fetches run.1 = []
  end.
Proof.
  cbv zeta. unfold scrapeLinkedInJobs.
  destruct (negb (str_truthy (str_or apiToken envToken))); [reflexivity |].
  destruct (startRes provider) as [err | runId datasetId] eqn:Hstart; [reflexivity |].
  match goal with
  | |- context [pollLoop ?a ?r ?t ?s ?p] =>
      destruct (pollLoop_events a r t p s) as [made Hmade];
      destruct (pollLoop a r t s p) as [events final]
  end.
  cbn in Hmade. subst events.
  destruct final as [status |];
    [destruct (negb (String.eqb status "SUCCEEDED")) |]; cbn [fst snd].
  - cbn. apply rounds_fetches.
  - split; [reflexivity |]. eexists runId, datasetId, (_ :: _).
    split; [reflexivity |]. split; [reflexivity |]. cbn. apply rounds_fetches.
  - cbn. apply rounds_fetches.
Qed.

(** ** More on the normalizer *)

Lemma or_truthy_or_default a d : truthy (a ||| d) = true \/ a ||| d = d.
Proof. unfold Js.or. destruct (truthy a) eqn:Ha; auto. Qed.

Lemma or_truthy_default a d : truthy d = true -> truthy (a ||| d) = true.
Proof. unfold Js.or. intros Hd. now destruct (truthy a) eqn:Ha. Qed.

(** X14. No field of a normalized job is left undefined, whatever the
    listing holds: the company name and the title are truthy (never the
    empty string); the job URL, the apply URL and the description are
    truthy or the empty string; the logo is truthy or [null]; the date
    is truthy or today's; the identifier is truthy or generated. *)
Theorem normalized_job_has_every_field uuidv4 today (rawJob : RawListing) n :
  let job := (normalizeJobData uuidv4 today rawJob n).1 in
  truthy (companyName job) = true /\
  truthy (jobTitle job) = true /\
  (truthy (jobUrl job) = true \/ jobUrl job = VStr "") /\
  (truthy (applyUrl job) = true \/ applyUrl job = VStr "") /\
  (truthy (description job) = true \/ description job = VStr "") /\
  (truthy (companyLogo job) = true \/ companyLogo job = VNull) /\
  (truthy (scrapedAt job) = true \/ scrapedAt job = VStr today) /\
  (truthy (jobId job) = true \/ jobId job = VStr (uuidv4 n)).
Proof.
  cbv zeta. unfold normalizeJobData.
  destruct (truthy (providedId rawJob)) eqn:Hid; cbn [fst jobId companyName jobTitle
    jobUrl applyUrl description companyLogo scrapedAt];
    repeat split;
    try (apply or_truthy_default; reflexivity);
    try apply or_truthy_or_default; auto.
Qed.

Lemma normalizeAll_length uuidv4 today rawJobs : forall n,
  length (normalizeAll uuidv4 today rawJobs n).1 = length rawJobs.
Proof.
  induction rawJobs as [| rawJob rest IH]; intros n; [reflexivity |].
  rewrite normalizeAll_cons. cbn. now rewrite IH.
Qed.

(** The listings of [rawJobs] that supply no identifier. *)
Lemma normalizeJobData_calls uuidv4 today rawJob n :
  (normalizeJobData uuidv4 today rawJob n).2 =
  (n + length (filter (fun r => truthy (providedId r) = false) [rawJob]))%nat.
Proof.
  pose proof (normalizeJobData_jobId uuidv4 today rawJob n) as H.
  rewrite filter_cons, filter_nil.
  destruct (truthy (providedId rawJob)) eqn:Hid; destruct H as [_ ->];
    destruct (decide _); cbn; try congruence; lia.
Qed.

(** X15. Normalization keeps one job per listing, in order, and draws
    one generated identifier per listing that supplies none, in order:
    the job at a position is the normalization of the listing at that
    position, made after as many [uuidv4()] calls as there are listings
    without identifier before it; the calls made in all are as many as
    the listings without identifier. *)
Theorem normalizeAll_positionwise uuidv4 today (rawJobs : list RawListing) n :
  length (normalizeAll uuidv4 today rawJobs n).1 = length rawJobs /\
  (normalizeAll uuidv4 today rawJobs n).2 =
    (n + length (filter (fun r => truthy (providedId r) = false) rawJobs))%nat /\
  forall i,
    (normalizeAll uuidv4 today rawJobs n).1 !! i =
    (fun rawJob =>
       (normalizeJobData uuidv4 today rawJob
          (n + length (filter (fun r => truthy (providedId r) = false)
                              (take i rawJobs)))).1) <$> rawJobs !! i.
Proof.
  split; [apply normalizeAll_length |].
  revert n. induction rawJobs as [| rawJob rest IH]; intros n.
  - cbn. split; [lia | intros i; reflexivity].
  - rewrite normalizeAll_cons. cbn [fst snd].
    destruct (IH (normalizeJobData uuidv4 today rawJob n).2) as [Hcalls Hjobs].
    assert (Hhead := normalizeJobData_calls uuidv4 today rawJob n).
    rewrite filter_cons, filter_nil in Hhead.
    split.
    + rewrite Hcalls, Hhead, filter_cons.
      destruct (decide (truthy (providedId rawJob) = false)); cbn; lia.
    + intros [| i]; cbn [lookup list_lookup fmap option_fmap option_map take].
      * cbn. now rewrite Nat.add_0_r.
      * rewrite Hjobs, Hhead, filter_cons.
        destruct (decide (truthy (providedId rawJob) = false));
          destruct (rest !! i) as [raw' |];
          cbn [fmap option_fmap option_map]; try reflexivity;
          do 3 f_equal; cbn [length]; lia.
Qed.

(** ** More on the endpoint *)

(** X16. The handler touches no file but the upload: whatever the
    request and however it ends, every other file of the temporary
    directory, a cover letter waiting to be downloaded for one, is left
    as it was. *)
Theorem handler_touches_only_the_upload out w req (otherPath : string) :
  (forall f, file req = Some f -> path f <> otherPath) ->
  (analyzeHandler out w req).1 !! otherPath = files w !! otherPath.
Proof.
  intros Hother. unfold analyzeHandler.
  destruct (file req) as [f |]; [| reflexivity].
  specialize (Hother f eq_refl).
  assert (Hcatch : forall e, (onError (files w) f e).1 !! otherPath = files w !! otherPath).
  { intros e. unfold onError, unlinkSync.
    destruct (existsSync (files w) (path f)); [| reflexivity].
    destruct (files w !! path f); [| reflexivity].
    cbn. now apply lookup_delete_ne. }
  destruct (pipeline out w f (body req)) as [analysisResult | e |];
    [| apply Hcatch | reflexivity].
  unfold unlinkSync. destruct (files w !! path f); [| apply Hcatch].
  cbn. now apply lookup_delete_ne.
Qed.

Lemma handler_touches_only_the_upload_sample :
  (analyzeHandler sampleOutside sampleWorld
     {| file := Some sampleUpload; body := sampleBody |}).1
    !! "/srv/job-scout/temp/cover-77.pdf" =
  files sampleWorld !! "/srv/job-scout/temp/cover-77.pdf".
Proof.
  apply (handler_touches_only_the_upload sampleOutside sampleWorld
           {| file := Some sampleUpload; body := sampleBody |}
           "/srv/job-scout/temp/cover-77.pdf").
  intros f [= <-]. discriminate.
Defined.

(** X17. A run that stays RUNNING holds the request: when the CV was
    extracted, a token resolved and the run accepted, and every status
    polled so far is RUNNING or READY, the handler has sent no response
    and has not removed the upload, which is still on disk. *)
Theorem stuck_run_keeps_the_upload out w f b buffer cvText runId datasetId :
  files w !! path f = Some buffer ->
  decode (pdfParse out) (mammoth_extractRawText out) (toString_utf8 out)
         buffer (path f) (mimetype f) = Ok cvText ->
  str_truthy (str_or (apifyToken b) (env_APIFY_API_TOKEN out)) = true ->
  startRes (provider out) = StartAccepted runId datasetId ->
  Forall (fun s => nonTerminal s = true) (pollStatuses (provider out)) ->
  analyzeHandler out w {| file := Some f; body := b |} = (files w, []) /\
  (analyzeHandler out w {| file := Some f; body := b |}).1 !! path f = Some buffer.
Proof.
  intros Hfile Hdecode Htoken Hstart Hpolls.
  assert (Hrun : pipeline out w f b = Pending).
  { unfold pipeline, extractText, readFileSync. rewrite Hfile. cbn [bind].
    rewrite Hdecode. cbn [try_catch]. unfold scrapeLinkedInJobs.
    rewrite Htoken, Hstart. cbn [negb].
    now rewrite pollLoop_nonTerminal by (reflexivity || assumption). }
  unfold analyzeHandler. cbn [file body]. rewrite Hrun. auto.
Qed.

Lemma stuck_run_keeps_the_upload_sample :
  analyzeHandler stuckOutside sampleWorld {| file := Some sampleUpload; body := sampleBody |}
    = (files sampleWorld, []) /\
  (analyzeHandler stuckOutside sampleWorld
     {| file := Some sampleUpload; body := sampleBody |}).1 !! path sampleUpload
    = Some "%PDF-1.7 Senior Go engineer".
Proof.
  apply (stuck_run_keeps_the_upload stuckOutside sampleWorld sampleUpload sampleBody
           "%PDF-1.7 Senior Go engineer"
           "Senior Go engineer, 8 years, distributed systems" "run-3" "dataset-3");
    try reflexivity.
  repeat constructor.
Defined.

(** X18. Upload, analysis and removal leave no trace: when multer has
    written the upload under a name that was free, and the request comes
    to an end, by a response 200 or 502, the temporary directory is
    again exactly what it was before the upload. *)
Theorem temporary_directory_is_restored out w tmpPath content mime b :
  files w !! tmpPath = None ->
  pipeline out (multerUpload w tmpPath content)
           {| path := tmpPath; mimetype := mime |} b <> Pending ->
  (analyzeHandler out (multerUpload w tmpPath content)
     {| file := Some {| path := tmpPath; mimetype := mime |}; body := b |}).1 = files w.
Proof.
  intros Hfree Hends. unfold analyzeHandler. cbn [file body].
  destruct (pipeline _ _ _ _) as [analysisResult | e |]; [| | congruence].
  - unfold unlinkSync, multerUpload. cbn [files path].
    rewrite lookup_insert_eq. cbn. now apply delete_insert_id.
  - unfold onError, unlinkSync, multerUpload. cbn [files path].
    rewrite existsSync_lookup, lookup_insert_eq. cbn. now apply delete_insert_id.
Qed.

Lemma temporary_directory_is_restored_sample :
  (analyzeHandler corruptOutside
     (multerUpload sampleWorld "/srv/job-scout/temp/9d41e0aa" "not a pdf")
     {| file := Some {| path := "/srv/job-scout/temp/9d41e0aa";
                        mimetype := "application/pdf" |};
        body := sampleBody |}).1 = files sampleWorld.
Proof.
  apply (temporary_directory_is_restored corruptOutside sampleWorld
           "/srv/job-scout/temp/9d41e0aa" "not a pdf" "application/pdf" sampleBody).
  - reflexivity.
  - vm_compute. discriminate.
Defined.

(** ** Numbers through the form *)

Lemma parseDigits_step c k rest acc :
  Number.digitValue c = Some k -> (k <? 10)%Z = true ->
  Number.parseDigits 10 acc (String c rest) =
  Number.parseDigits 10 (Some (10 * default 0%Z acc + k)%Z) rest.
Proof. intros Hc Hk. cbn [Number.parseDigits]. now rewrite Hc, Hk. Qed.

Lemma parseDigits_uint d : forall acc,
  Number.parseDigits 10 (Some acc) (NilEmpty.string_of_uint d) = Some (uintValue d acc).
Proof.
  induction d; intros acc; cbn [NilEmpty.string_of_uint uintValue];
    [reflexivity | ..];
    (erewrite parseDigits_step; [| vm_compute; reflexivity | reflexivity]);
    cbn [default id]; rewrite IHd; f_equal; f_equal; unfold id; lia.
Qed.

Lemma of_uint_acc_value d : forall acc,
  Z.pos (Pos.of_uint_acc d acc) = uintValue d (Z.pos acc).
Proof.
  induction d; intros acc; cbn [Pos.of_uint_acc uintValue];
    [reflexivity | ..]; rewrite IHd; f_equal; lia.
Qed.

Lemma of_uint_value d : Z.of_N (Pos.of_uint d) = uintValue d 0.
Proof.
  induction d; cbn [Pos.of_uint uintValue Z.of_N]; [reflexivity | assumption | ..];
    rewrite of_uint_acc_value; reflexivity.
Qed.

Lemma to_uint_value p : uintValue (Pos.to_uint p) 0 = Z.pos p.
Proof. now rewrite <- of_uint_value, DecimalPos.Unsigned.of_to. Qed.

Lemma parseInt_digits d :
  d <> Decimal.Nil ->
  Number.parseInt (Some (NilEmpty.string_of_uint d)) = Some (uintValue d 0).
Proof.
  intros Hd. unfold Number.parseInt. cbn [default id].
  destruct d as [| l | l | l | l | l | l | l | l | l | l]; [congruence | ..].
  all: cbn [NilEmpty.string_of_uint Number.trimStart].
  all: change (Number.isWhiteSpace _) with false; cbv iota.
  1: destruct l; cbn [NilEmpty.string_of_uint]; cbv iota.
  all: erewrite parseDigits_step by (vm_compute; reflexivity).
  all: cbn [default id].
  all: try (erewrite parseDigits_step by (vm_compute; reflexivity)).
  all: cbn [default id].
  all: rewrite ?parseDigits_uint.
  all: cbn [fmap option_fmap option_map Number.parseDigits uintValue].
  all: f_equal; rewrite ?Z.mul_1_l; reflexivity.
Qed.

Lemma parseInt_minus_digits d :
  d <> Decimal.Nil ->
  Number.parseInt (Some (String "-" (NilEmpty.string_of_uint d))) =
  Some (- uintValue d 0)%Z.
Proof.
  intros Hd. unfold Number.parseInt. cbn [default id Number.trimStart].
  change (Number.isWhiteSpace "-") with false. cbv iota.
  destruct d as [| l | l | l | l | l | l | l | l | l | l]; [congruence | ..].
  all: cbn [NilEmpty.string_of_uint]; cbv iota.
  1: destruct l; cbn [NilEmpty.string_of_uint]; cbv iota.
  all: erewrite parseDigits_step by (vm_compute; reflexivity).
  all: cbn [default id].
  all: try (erewrite parseDigits_step by (vm_compute; reflexivity)).
  all: cbn [default id].
  all: rewrite ?parseDigits_uint.
  all: cbn [fmap option_fmap option_map Number.parseDigits uintValue].
  all: f_equal; lia.
Qed.

Lemma parseInt_toString n : Number.parseInt (Some (Number.toString n)) = Some n.
Proof.
  unfold Number.toString. destruct n as [| p | p]; [reflexivity | |];
    cbn [Z.to_int NilZero.string_of_int]; unfold NilZero.string_of_uint;
    pose proof (DecimalPos.Unsigned.to_uint_nonnil p) as Hnil;
    pose proof (to_uint_value p) as Hvalue;
    destruct (Pos.to_uint p) eqn:Hd; try congruence.
  all: try (rewrite parseInt_digits by discriminate; now rewrite Hvalue).
  all: rewrite parseInt_minus_digits by discriminate; now rewrite Hvalue.
Qed.

Lemma handleSubmit_Posted st cv fields :
  App.handleSubmit st = App.Posted cv fields ->
  App.cvFile st = Some cv /\
  includes (App.searchUrl st) "linkedin.com/jobs/search" = true /\
  fields = mkBody (App.searchUrl st)
                  (Some (Number.toString (App.maxJobs st)))
                  (Some (Number.toString (App.scoreThreshold st)))
                  (Some (App.apifyToken st))
                  (Some (App.apifyActor st)).
Proof.
  unfold App.handleSubmit. destruct (App.cvFile st) as [cv' |]; [| discriminate].
  destruct (includes (App.searchUrl st) "linkedin.com/jobs/search"); cbn [negb];
    [| discriminate].
  intros [= <- <-]. auto.
Qed.

(** X19. The numbers of the form reach the handler unchanged, but for
    0: when a submission is posted, the handler reads back from the
    [maxJobs] and [scoreThreshold] fields the integers the form held
    (safe integers, printed in decimal by [toString] and read by
    [parseInt]), except that it takes a 0 for the default, 50 or 60; the
    search URL it receives contains "linkedin.com/jobs/search". *)
Theorem form_numbers_reach_the_handler st cv fields :
  App.handleSubmit st = App.Posted cv fields ->
  (- MAX_SAFE_INTEGER <= App.maxJobs st <= MAX_SAFE_INTEGER)%Z ->
  (- MAX_SAFE_INTEGER <= App.scoreThreshold st <= MAX_SAFE_INTEGER)%Z ->
  requestedMaxJobs fields =
    (if (App.maxJobs st =? 0)%Z then 50%Z else App.maxJobs st) /\
  requestedThreshold fields =
    (if (App.scoreThreshold st =? 0)%Z then 60%Z else App.scoreThreshold st) /\
  searchUrl fields = App.searchUrl st /\
  includes (searchUrl fields) "linkedin.com/jobs/search" = true.
Proof.
  intros Hposted _ _. apply handleSubmit_Posted in Hposted as (_ & Hurl & ->).
  unfold requestedMaxJobs, requestedThreshold. cbn [maxJobs scoreThreshold searchUrl].
  rewrite !parseInt_toString. cbn [Number.or]. auto.
Qed.

Lemma form_numbers_reach_the_handler_sample :
  requestedMaxJobs
    (mkBody "https://www.linkedin.com/jobs/search?keywords=go"
            (Some (Number.toString 50)) (Some (Number.toString 60))
            (Some "") (Some "curious_coder~linkedin-jobs-scraper")) =
    (if (App.maxJobs sampleForm =? 0)%Z then 50%Z else App.maxJobs sampleForm) /\
  requestedThreshold
    (mkBody "https://www.linkedin.com/jobs/search?keywords=go"
            (Some (Number.toString 50)) (Some (Number.toString 60))
            (Some "") (Some "curious_coder~linkedin-jobs-scraper")) =
    (if (App.scoreThreshold sampleForm =? 0)%Z then 60%Z else App.scoreThreshold sampleForm) /\
  searchUrl
    (mkBody "https://www.linkedin.com/jobs/search?keywords=go"
            (Some (Number.toString 50)) (Some (Number.toString 60))
            (Some "") (Some "curious_coder~linkedin-jobs-scraper")) =
    App.searchUrl sampleForm /\
  includes
    (searchUrl
       (mkBody "https://www.linkedin.com/jobs/search?keywords=go"
               (Some (Number.toString 50)) (Some (Number.toString 60))
               (Some "") (Some "curious_coder~linkedin-jobs-scraper")))
    "linkedin.com/jobs/search" = true.
Proof.
  apply (form_numbers_reach_the_handler sampleForm
           {| App.content := "%PDF-1.7 Senior Go engineer";
              App.mimeType := "application/pdf" |}).
  - reflexivity.
  - unfold MAX_SAFE_INTEGER. cbn. lia.
  - unfold MAX_SAFE_INTEGER. cbn. lia.
Defined.

(** X20. The actor of the form wins over the environment: the form
    always posts its actor field, so as long as that field is not empty,
    and it is filled in when the form is first shown, the scrape is the
    same whatever [APIFY_ACTOR_SLUG] is set to. *)
Theorem form_actor_overrides_environment
    st cv fields envToken envActor envActor' provider :
  App.handleSubmit st = App.Posted cv fields ->
  App.apifyActor st <> "" ->
  scrapeLinkedInJobs envToken envActor provider (searchUrl fields)
                     (requestedMaxJobs fields) (apifyToken fields) (apifyActor fields) =
  scrapeLinkedInJobs envToken envActor' provider (searchUrl fields)
                     (requestedMaxJobs fields) (apifyToken fields) (apifyActor fields).
Proof.
  intros Hposted Hactor. apply handleSubmit_Posted in Hposted as (_ & _ & ->).
  cbn [searchUrl apifyToken apifyActor].
  unfold scrapeLinkedInJobs.
  assert (Hor : forall env, str_or (Some (App.apifyActor st)) env = Some (App.apifyActor st)).
  { intros env. unfold str_or, str_truthy.
    destruct (String.eqb_spec (App.apifyActor st) ""); [contradiction | reflexivity]. }
  now rewrite !Hor.
Qed.

Lemma form_actor_overrides_environment_sample :
  scrapeLinkedInJobs (Some "apify_api_token") None succeedingProvider
    "https://www.linkedin.com/jobs/search?keywords=go"
    (requestedMaxJobs
       (mkBody "https://www.linkedin.com/jobs/search?keywords=go"
               (Some (Number.toString 50)) (Some (Number.toString 60))
               (Some "") (Some "curious_coder~linkedin-jobs-scraper")))
    (Some "") (Some "curious_coder~linkedin-jobs-scraper") =
  scrapeLinkedInJobs (Some "apify_api_token") (Some "acme~another-scraper") succeedingProvider
    "https://www.linkedin.com/jobs/search?keywords=go"
    (requestedMaxJobs
       (mkBody "https://www.linkedin.com/jobs/search?keywords=go"
               (Some (Number.toString 50)) (Some (Number.toString 60))
               (Some "") (Some "curious_coder~linkedin-jobs-scraper")))
    (Some "") (Some "curious_coder~linkedin-jobs-scraper").
Proof.
  apply (form_actor_overrides_environment sampleForm
           {| App.content := "%PDF-1.7 Senior Go engineer";
              App.mimeType := "application/pdf" |}
           (mkBody "https://www.linkedin.com/jobs/search?keywords=go"
                   (Some (Number.toString 50)) (Some (Number.toString 60))
                   (Some "") (Some "curious_coder~linkedin-jobs-scraper"))
           (Some "apify_api_token") None (Some "acme~another-scraper") succeedingProvider).
  - reflexivity.
  - discriminate.
Defined.

(** ** The prompt of the cover letter *)


Lemma prefix_append s1 s2 : String.prefix s1 (s1 +:+ s2) = true.
Proof.
  induction s1 as [| c s1 IH]; simpl; [now destruct s2 |].
  destruct (Ascii.ascii_dec c c); [assumption | congruence].
Qed.



Lemma coverLetterPromptOfBody_contextBody job cvContext :
  coverLetterPromptOfBody job (contextBody <$> cvContext) = coverLetterPrompt job cvContext.
Proof.
  unfold coverLetterPromptOfBody, coverLetterPrompt.
  destruct (description job); try reflexivity.
  destruct cvContext as [[[skills |] [highlights |]] |]; reflexivity.
Qed.



(** ** From the dataset to the response *)

Lemma normalizeAll_elem_of uuidv4 today rawJobs : forall n job,
  job ∈ (normalizeAll uuidv4 today rawJobs n).1 ->
  exists rawJob k, rawJob ∈ rawJobs /\ job = (normalizeJobData uuidv4 today rawJob k).1.
Proof.
  induction rawJobs as [| rawJob rest IH]; intros n job Hin.
  - cbn in Hin. now apply elem_of_nil in Hin.
  - rewrite normalizeAll_cons in Hin. cbn [fst] in Hin.
    apply elem_of_cons in Hin as [-> | Hin].
    + exists rawJob, n. split; [apply list_elem_of_here | reflexivity].
    + apply IH in Hin as (raw' & k & Hraw' & ->).
      exists raw', k. split; [now apply list_elem_of_further | reflexivity].
Qed.

Lemma scrapeLinkedInJobs_Returned
    envToken envActor provider searchUrl requested apiToken actorSlug items :
  (scrapeLinkedInJobs envToken envActor provider searchUrl requested
                      apiToken actorSlug).2 = Returned items ->
  items = datasetItems provider.
Proof.
  unfold scrapeLinkedInJobs.
  destruct (negb (str_truthy (str_or apiToken envToken))); [discriminate |].
  destruct (startRes provider) as [err | runId datasetId]; [discriminate |].
  destruct (pollLoop _ _ _ _ _) as [events [status |]]; [| discriminate].
  destruct (negb (String.eqb status "SUCCEEDED")); [discriminate |].
  now intros [= <-].
Qed.

(** X23. Every job the endpoint answers with comes from the provider's
    dataset: when the pipeline of a request returns, each job of the
    analysis is the normalization of an item of the dataset of the run,
    carrying the answer of the completion service and a score of at
    least the threshold read from the form. *)
Theorem response_jobs_come_from_the_dataset out w f b analysisResult :
  pipeline out w f b = Returned analysisResult ->
  Forall (fun j =>
            (exists rawJob k,
                rawJob ∈ datasetItems (provider out) /\
                listing j = (normalizeJobData (uuidv4 out) (today out) rawJob k).1) /\
            scoreAtLeast (requestedThreshold b) j)
         (jobs analysisResult).
Proof.
  intros Hrun. pose proof (pipeline_atLeast out w f b analysisResult Hrun) as Hleast.
  unfold pipeline in Hrun.
  destruct (extractText _ _ _ _ _ _) as [cvText |]; [| discriminate].
  destruct (scrapeLinkedInJobs _ _ _ _ _ _ _).2 as [rawJobs | |] eqn:Hscrape;
    try discriminate.
  apply scrapeLinkedInJobs_Returned in Hscrape. subst rawJobs.
  destruct (analyzeCvAndJobs _ _ _ _ _) as [response |] eqn:Hanalysis; [| discriminate].
  injection Hrun as <-.
  rewrite Forall_forall in Hleast. apply Forall_forall. intros j Hj.
  split; [| now apply Hleast].
  rewrite (analyzeCvAndJobs_jobs _ _ _ _ _ _ Hanalysis), sort_Permutation in Hj.
  apply scoreAll_elem_of in Hj as (i & job & Hi & Hscore).
  apply scoreJob_Some in Hscore as (Hlisting & _ & _). subst job.
  apply list_elem_of_lookup_2 in Hi.
  now apply normalizeAll_elem_of in Hi.
Qed.

Lemma response_jobs_come_from_the_dataset_sample :
  Forall (fun j =>
            (exists rawJob k,
                rawJob ∈ datasetItems (provider sampleOutside) /\
                listing j = (normalizeJobData (uuidv4 sampleOutside) (today sampleOutside)
                                              rawJob k).1) /\
            scoreAtLeast (requestedThreshold sampleBody) j)
         (sort byScoreDesc
            (scoreAll sampleScore sampleCv 70 0
               (normalizeAll countingUuid "2025-01-15" anonymousListings 0).1)).
Proof.
  apply (response_jobs_come_from_the_dataset sampleOutside sampleWorld sampleUpload sampleBody
           {| cv := sampleCv;
              jobs := sort byScoreDesc
                        (scoreAll sampleScore sampleCv 70 0
                           (normalizeAll countingUuid "2025-01-15" anonymousListings 0).1) |}).
  vm_compute. reflexivity.
Defined.

Lemma pollLoop_trace actor runId token polls : forall status,
  nonTerminal status = true ->
  pollLoop actor runId token status polls =
  (rounds actor runId token (observedUntilTerminal polls), firstTerminal polls).
Proof.
  induction polls as [| observed later IH]; intros status Hstatus; cbn.
  - now rewrite Hstatus.
  - rewrite Hstatus. destruct (nonTerminal observed) eqn:Hobserved.
    + now rewrite (IH observed Hobserved).
    + destruct later; cbn; now rewrite Hobserved.
Qed.

(** X24. The whole trace of a run that was accepted: the start request
    with the resolved actor and token and the capped count; then one
    round of a 5-second delay followed by a poll for each status the
    provider answers, up to and including the first that is neither
    RUNNING nor READY; then the dataset read if and only if the scrape
    returns. The scrape returns the items when that first ending status
    is SUCCEEDED, throws with it when it is another one, and is still
    polling when there is none. The adapter never polls before
    waiting, nor twice in a row. *)
Theorem accepted_run_alternates_delay_and_poll
    envToken envActor provider searchUrl requested apiToken actorSlug runId datasetId :
  str_truthy (str_or apiToken envToken) = true ->
  startRes provider = StartAccepted runId datasetId ->
  let run := scrapeLinkedInJobs envToken envActor provider searchUrl requested
                                apiToken actorSlug in
  let token := default "" (str_or apiToken envToken) in
  let actor := default "curious_coder~linkedin-jobs-scraper"
                 (str_or (str_or actorSlug envActor)
                         (Some "curious_coder~linkedin-jobs-scraper")) in
  run.1 = EStart actor token
            {| startUrls := [searchUrl];
               maxItems := Z.min requested 100;
               limit := Z.min requested 100 |}
            :: rounds actor runId token (observedUntilTerminal (pollStatuses provider))
            ++ match run.2 with
               | Returned _ => [EFetchItems datasetId token 100]
               | Raised _ | Pending => []
               end /\
  run.2 = match firstTerminal (pollStatuses provider) with
          | None => Pending
          | Some status =>
              if String.eqb status "SUCCEEDED"
              then Returned (datasetItems provider)
              else Raised (mkError ("Apify run failed with status: " +:+ status))
          end.
Proof.
  intros Htoken Hstart run token actor. subst run token actor.
  unfold scrapeLinkedInJobs. rewrite Htoken, Hstart. cbn [negb].
  rewrite pollLoop_trace by reflexivity.
  destruct (firstTerminal (pollStatuses provider)) as [status |];
    [destruct (String.eqb status "SUCCEEDED") |]; cbn [negb fst snd];
    rewrite ?app_nil_r; split; reflexivity.
Qed.

Lemma accepted_run_alternates_delay_and_poll_sample :
  let run := scrapeLinkedInJobs (Some "apify_api_token") None succeedingProvider
               "https://www.linkedin.com/jobs/search?keywords=go" 50 None None in
  let token := default "" (str_or None (Some "apify_api_token")) in
  let actor := default "curious_coder~linkedin-jobs-scraper"
                 (str_or (str_or None None)
                         (Some "curious_coder~linkedin-jobs-scraper")) in
  run.1 = EStart actor token
            {| startUrls := ["https://www.linkedin.com/jobs/search?keywords=go"];
               maxItems := Z.min 50 100;
               limit := Z.min 50 100 |}
            :: rounds actor "run-1" token
                 (observedUntilTerminal (pollStatuses succeedingProvider))
            ++ match run.2 with
               | Returned _ => [EFetchItems "dataset-1" token 100]
               | Raised _ | Pending => []
               end /\
  run.2 = match firstTerminal (pollStatuses succeedingProvider) with
          | None => Pending
          | Some status =>
              if String.eqb status "SUCCEEDED"
              then Returned (datasetItems succeedingProvider)
              else Raised (mkError ("Apify run failed with status: " +:+ status))
          end.
Proof.
  apply (accepted_run_alternates_delay_and_poll (Some "apify_api_token") None
           succeedingProvider "https://www.linkedin.com/jobs/search?keywords=go" 50
           None None "run-1" "dataset-1"); reflexivity.
Defined.

(** ** Scoring and the fate of a request *)


